(** * ITAM titulados scraper: a shallow embedding of [scrape_titulados.py]

    The development follows the source file top-down: Python strings and
    the string methods the scraper calls, the exceptions it raises, the
    parsed HTML tree the BeautifulSoup queries walk, then each function of
    the module ([get_latest_html], [sanitize_filename], [parse_programas],
    [parse_titulados_table], [split_name], [scrape_career], [main]) and
    the theorems about them. *)

From Stdlib Require Import String Ascii.
From Stdlib Require Import List NArith Arith Bool Lia Permutation.
Import ListNotations.

(** [len(xs)] on lists. *)
Abbreviation len := Datatypes.length.

Set Implicit Arguments.

(* ================================================================== *)
(** * Python strings *)
(* ================================================================== *)

Module PyStr.

(** A Python [str] is a sequence of Unicode code points. *)
Definition pychar := N.
Definition pystr := list pychar.

#[local] Open Scope N_scope.

(** String constants of the source are written as Rocq string literals
    and read code point by code point (all of them are ASCII). *)
Definition lit (s : string) : pystr :=
  map N_of_ascii (list_ascii_of_string s).
Arguments lit s%_string.

Definition pystr_eqb (a b : pystr) : bool :=
  if list_eq_dec N.eq_dec a b then true else false.

Definition is_empty (s : pystr) : bool :=
  match s with [] => true | _ => false end.

(** [not xs] on a list. *)
Definition is_nil {A} (xs : list A) : bool :=
  match xs with [] => true | _ => false end.

(** [str.isspace] on one code point: the set used by [str.strip()] and
    [str.split()] without arguments (CPython's [Py_UNICODE_ISSPACE]). *)
Definition is_space (c : pychar) : bool :=
  ((9 <=? c) && (c <=? 13)) || ((28 <=? c) && (c <=? 32))
  || (c =? 133) || (c =? 160) || (c =? 5760)
  || ((8192 <=? c) && (c <=? 8202))
  || (c =? 8232) || (c =? 8233) || (c =? 8239) || (c =? 8287)
  || (c =? 12288).

Fixpoint lstrip (s : pystr) : pystr :=
  match s with
  | [] => []
  | c :: s' => if is_space c then lstrip s' else s
  end.

Definition rstrip (s : pystr) : pystr := rev (lstrip (rev s)).

(** [s.strip()] *)
Definition strip (s : pystr) : pystr := rstrip (lstrip s).

(** One step of the tokenizer: close the token being read, if any. *)
Definition emit (cur : pystr) (rest : list pystr) : list pystr :=
  match cur with [] => rest | _ => cur :: rest end.

(** The scan of [s.split()]: [cur] is the token read so far. *)
Fixpoint split_from (cur : pystr) (s : pystr) : list pystr :=
  match s with
  | [] => emit cur []
  | c :: s' =>
      if is_space c then emit cur (split_from [] s')
      else split_from (cur ++ [c]) s'
  end.

(** [s.split()] *)
Definition split (s : pystr) : list pystr := split_from [] s.

(** [sep.join(parts)] *)
Fixpoint join (sep : pystr) (parts : list pystr) : pystr :=
  match parts with
  | [] => []
  | [p] => p
  | p :: rest => p ++ sep ++ join sep rest
  end.

(** [s.startswith(p)] *)
Fixpoint startswith (s p : pystr) : bool :=
  match p, s with
  | [], _ => true
  | _ :: _, [] => false
  | a :: p', b :: s' => (a =? b) && startswith s' p'
  end.

(** [sub in s] *)
Fixpoint contains (sub s : pystr) : bool :=
  startswith s sub ||
  match s with
  | [] => false
  | _ :: s' => contains sub s'
  end.

(** Truthiness of a string: [if s:] / [not s] / [s or d]. *)
Definition truthy (s : pystr) : bool := negb (is_empty s).

Definition or_else (s d : pystr) : pystr := if truthy s then s else d.

End PyStr.
Import PyStr.

(* ================================================================== *)
(** * Exceptions *)
(* ================================================================== *)

(** The exceptions that travel through the module.  [RuntimeError msg
    cause] is [raise RuntimeError(msg) from cause]. *)
Inductive exn : Type :=
| RequestException (msg : pystr)
| RuntimeError (msg : pystr) (cause : exn)
| IndexError
| OSError (msg : pystr).

(** [str(e)] *)
Definition exn_str (e : exn) : pystr :=
  match e with
  | RequestException m => m
  | RuntimeError m _ => m
  | IndexError => lit "list index out of range"
  | OSError m => m
  end.

Inductive result (A : Type) : Type :=
| Ok (a : A)
| Raise (e : exn).
Arguments Ok {A} a.
Arguments Raise {A} e.

Definition rbind {A B} (r : result A) (k : A -> result B) : result B :=
  match r with
  | Ok a => k a
  | Raise e => Raise e
  end.

(** [xs[i]]: out of range raises [IndexError]. *)
Definition getitem {A} (xs : list A) (i : nat) : result A :=
  match nth_error xs i with
  | Some x => Ok x
  | None => Raise IndexError
  end.

(** [xs[i:]] *)
Definition slice_from {A} (xs : list A) (i : nat) : list A := skipn i xs.

(* ================================================================== *)
(** * [split_name] *)
(* ================================================================== *)

(** The four keys of the dictionary [split_name] returns. *)
Record NameParts : Type := mkNameParts {
  apellido_paterno : pystr;
  apellido_materno : pystr;
  primer_nombre : pystr;
  segundo_nombre : pystr
}.

Definition split_name (full_name : pystr) : result NameParts :=
  let tokens := split (strip full_name) in
  let n := len tokens in
  if 4 <=? n then
    rbind (getitem tokens 0) (fun t0 =>
    rbind (getitem tokens 1) (fun t1 =>
    rbind (getitem tokens 2) (fun t2 =>
    Ok (mkNameParts t0 t1 t2 (join (lit " ") (slice_from tokens 3))))))
  else if n =? 3 then
    rbind (getitem tokens 0) (fun t0 =>
    rbind (getitem tokens 1) (fun t1 =>
    rbind (getitem tokens 2) (fun t2 =>
    Ok (mkNameParts t0 t1 t2 []))))
  else if n =? 2 then
    rbind (getitem tokens 0) (fun t0 =>
    rbind (getitem tokens 1) (fun t1 =>
    Ok (mkNameParts t0 [] t1 [])))
  else if n =? 1 then
    rbind (getitem tokens 0) (fun t0 =>
    Ok (mkNameParts t0 [] [] []))
  else
    Ok (mkNameParts [] [] [] []).

(* ================================================================== *)
(** * [sanitize_filename] *)
(* ================================================================== *)

(** Membership in the character class of the regular expression of
    [sanitize_filename]: less-than, greater-than, colon, double quote,
    slash, backslash, vertical bar, question mark and asterisk, that is
    code points 60, 62, 58, 34, 47, 92, 124, 63 and 42. *)
Definition unsafe_char (c : pychar) : bool :=
  existsb (N.eqb c) [60; 62; 58; 34; 47; 92; 124; 63; 42]%N.

Definition underscore : pychar := 95%N.

(** [re.sub] with that class and an underscore as replacement: every
    match is one character, replaced in place. *)
Definition re_sub_unsafe (name : pystr) : pystr :=
  map (fun c => if unsafe_char c then underscore else c) name.

Definition sanitize_filename (name : pystr) : pystr :=
  let sanitized := re_sub_unsafe name in
  or_else (strip sanitized) (lit "unknown").

(* ================================================================== *)
(** * The parsed HTML tree *)
(* ================================================================== *)

(** What [BeautifulSoup(html, "html.parser")] builds: tags with their
    attribute dictionary and contents, the strings between them, and the
    strings [get_text] passes over (comments, declarations). *)
Inductive node : Type :=
| Text (s : pystr)
| Hidden (s : pystr)
| Tag (name : pystr) (attrs : list (pystr * pystr)) (contents : list node).

(** [tag.descendants]: everything below a node, in document order. *)
Fixpoint descendants (n : node) : list node :=
  match n with
  | Tag _ _ contents => flat_map (fun c => c :: descendants c) contents
  | _ => []
  end.

Definition has_name (names : list pystr) (n : node) : bool :=
  match n with
  | Tag name _ _ => existsb (pystr_eqb name) names
  | _ => false
  end.

(** [tag.find_all(name)] and [tag.find_all([name1, name2])] *)
Definition find_all (names : list pystr) (n : node) : list node :=
  filter (has_name names) (descendants n).

(** [tag.find(name)]: the first match, or [None]. *)
Definition find (names : list pystr) (n : node) : option node :=
  hd_error (find_all names n).

Fixpoint dict_get (attrs : list (pystr * pystr)) (key : pystr) : option pystr :=
  match attrs with
  | [] => None
  | (k, v) :: rest => if pystr_eqb k key then Some v else dict_get rest key
  end.

(** [tag.get(key, default)] *)
Definition tag_get (n : node) (key default : pystr) : pystr :=
  match n with
  | Tag _ attrs _ =>
      match dict_get attrs key with Some v => v | None => default end
  | _ => default
  end.

Definition has_attr (key : pystr) (n : node) : bool :=
  match n with
  | Tag _ attrs _ =>
      match dict_get attrs key with Some _ => true | None => false end
  | _ => false
  end.

(** [tag.find_all("a", href=True)] *)
Definition find_all_a_href (n : node) : list node :=
  filter (has_attr (lit "href")) (find_all [lit "a"] n).

(** The strings [get_text(strip=True)] visits: each text string below the
    tag, stripped, the empty ones left out. *)
Definition stripped_strings (n : node) : list pystr :=
  flat_map (fun d =>
              match d with
              | Text s => if is_empty (strip s) then [] else [strip s]
              | _ => []
              end) (descendants n).

(** [tag.get_text(strip=True)] *)
Definition get_text_strip (n : node) : pystr := concat (stripped_strings n).

(* ================================================================== *)
(** * Constants of the module *)
(* ================================================================== *)

Definition BASE_URL : pystr := lit "https://escolar1.rhon.itam.mx/titulacion".
Definition PROGRAMAS_URL : pystr := BASE_URL ++ lit "/programas.asp".
Definition OUTPUT_DIR : pystr := lit "output".
Definition MAX_WORKERS : nat := 5.
Definition RETRIES : nat := 2.
Definition RETRY_DELAY : nat := 2.

(* ================================================================== *)
(** * The two page parsers *)
(* ================================================================== *)

Section Parsers.

(** [str.upper()], Python's Unicode case mapping. *)
Variable upper : pystr -> pystr.

(** [BeautifulSoup(html, "html.parser")], returning the document root. *)
Variable html_parser : pystr -> node.

(** ** [parse_programas] *)

(** One turn of the loop over the anchors of the Licenciatura table. *)
Definition add_link (results : list (pystr * pystr)) (a : node)
  : list (pystr * pystr) :=
  let href := strip (tag_get a (lit "href") []) in
  if negb (contains (lit "titulados.asp") href)
     || negb (contains (lit "prog=") href) then results
  else
    let name := get_text_strip a in
    if negb (truthy name) then results
    else
      let url :=
        if startswith href (lit "http") then href
        else if startswith href (lit "/") then
          lit "https://escolar1.rhon.itam.mx" ++ href
        else BASE_URL ++ lit "/" ++ href in
      results ++ [(name, url)].

(** The loop over [soup.find_all("table")]; [results] is the list being
    appended to.  [break] returns it, [continue] moves to the next table. *)
Fixpoint programas_loop (tables : list node) (results : list (pystr * pystr))
  : result (list (pystr * pystr)) :=
  match tables with
  | [] => Ok results
  | table :: rest =>
      match find [lit "tr"] table with
      | None => programas_loop rest results
      | Some first_row =>
          let header_cells := find_all [lit "th"; lit "td"] first_row in
          if negb (len header_cells =? 1)%nat then programas_loop rest results
          else
            rbind (getitem header_cells 0) (fun cell =>
            let section_name := upper (get_text_strip cell) in
            if pystr_eqb section_name (lit "DOCTORADO") then Ok results
            else if negb (pystr_eqb section_name (lit "LICENCIATURA")) then
              programas_loop rest results
            else
              programas_loop rest
                (fold_left add_link (find_all_a_href table) results))
      end
  end.

Definition parse_programas_soup (soup : node) : result (list (pystr * pystr)) :=
  programas_loop (find_all [lit "table"] soup) [].

Definition parse_programas (html : pystr) : result (list (pystr * pystr)) :=
  parse_programas_soup (html_parser html).

(** ** [parse_titulados_table] *)

(** The loop over the rows of the matching table, after the header. *)
Fixpoint rows_loop (trs : list node) (rows_data : list (pystr * pystr))
  : result (list (pystr * pystr)) :=
  match trs with
  | [] => Ok rows_data
  | tr :: rest =>
      let cells := find_all [lit "td"; lit "th"] tr in
      if (2 <=? len cells)%nat then
        rbind (getitem cells 0) (fun c0 =>
        rbind (getitem cells 1) (fun c1 =>
        let nombre := get_text_strip c0 in
        let anio := get_text_strip c1 in
        if truthy nombre || truthy anio then
          rows_loop rest (rows_data ++ [(nombre, anio)])
        else rows_loop rest rows_data))
      else rows_loop rest rows_data
  end.

(** The texts of the cells of the first row of a table. *)
Definition header_cells_of (table : node) : list pystr :=
  match find [lit "tr"] table with
  | Some thead => map get_text_strip (find_all [lit "th"; lit "td"] thead)
  | None => []
  end.

Fixpoint titulados_loop (tables : list node) (rows_data : list (pystr * pystr))
  : result (list (pystr * pystr)) :=
  match tables with
  | [] => Ok rows_data
  | table :: rest =>
      let header_cells := header_cells_of table in
      match header_cells with
      | [] => titulados_loop rest rows_data
      | _ :: _ =>
          let header_text := join (lit " ") header_cells in
          let has_nombre_alumno :=
            contains (lit "Nombre") header_text
            && contains (lit "alumno") header_text in
          let has_anio_titulacion := contains (lit "titulaci") header_text in
          if negb (has_nombre_alumno && has_anio_titulacion) then
            titulados_loop rest rows_data
          else
            rows_loop (slice_from (find_all [lit "tr"] table) 1) rows_data
      end
  end.

Definition parse_titulados_soup (soup : node) : result (list (pystr * pystr)) :=
  titulados_loop (find_all [lit "table"] soup) [].

Definition parse_titulados_table (html : pystr) : result (list (pystr * pystr)) :=
  parse_titulados_soup (html_parser html).

End Parsers.

(* ================================================================== *)
(** * The world outside: network, disk, scheduler *)
(* ================================================================== *)

(** A [requests.Response] as the module uses it: the charset the server
    declared (or [None]), the charset guessed from the bytes, the bytes. *)
Record Response : Type := mkResponse {
  encoding : option pystr;
  apparent_encoding : option pystr;
  content : list N
}.

(** What one [requests.get(url, timeout=30)] followed by
    [resp.raise_for_status()] comes to: one of the two raises a
    [RequestException] (timeout, connection error, error status), or the
    response is there. *)
Inductive attempt : Type :=
| Failed (msg : pystr)
| Answered (resp : Response).

(** The environment of a run.  [net tid url k] answers the [k]-th request
    thread [tid] makes; [disk path] is the [OSError] that opening [path]
    for writing raises, if any; [sched] fixes the order in which the
    futures complete. *)
Record World : Type := mkWorld {
  net : nat -> pystr -> nat -> attempt;
  disk : pystr -> option pystr;
  sched : list nat
}.

(** The lines the module prints. *)
Inductive message : Type :=
| MsgFetching
| MsgNoLinks
| MsgFound (n : nat)
| MsgOk (name : pystr) (count : nat)
| MsgFail (name : pystr) (e : pystr)
| MsgDone (ok ncareers : nat) (output_path : pystr) (total_rows : nat)
| MsgSomeFailed.

(** What a thread does to the outside, in order. *)
Inductive event : Type :=
| EvGet (url : pystr) (timeout : nat)
| EvSleep (seconds : nat)
| EvMkdir (path : pystr)
| EvWriteCsv (path : pystr) (lines : list (list pystr))
| EvPrint (m : message).

Record Thread : Type := mkThread {
  tid : nat;
  requests_made : nat;
  trace : list event
}.

Definition new_thread (t : nat) : Thread := mkThread t 0 [].

(** Computations of one thread: they read and extend the thread's state
    and end in a value or an exception. *)
Module Eff.

Definition M (A : Type) : Type := Thread -> result A * Thread.

Definition ret {A} (a : A) : M A := fun st => (Ok a, st).

Definition raise {A} (e : exn) : M A := fun st => (Raise e, st).

Definition bind {A B} (c : M A) (k : A -> M B) : M B :=
  fun st =>
    match c st with
    | (Ok a, st') => k a st'
    | (Raise e, st') => (Raise e, st')
    end.

Definition lift {A} (r : result A) : M A := fun st => (r, st).

Definition log (ev : event) : M unit :=
  fun st => (Ok tt, mkThread (tid st) (requests_made st) (trace st ++ [ev])).

End Eff.
Import Eff.

Notation "x <- c ;; k" := (bind c (fun x => k))
  (at level 61, c at next level, right associativity).
Notation "c ;;; k" := (bind c (fun _ => k))
  (at level 61, right associativity).

Section Scraper.

Variable upper : pystr -> pystr.
Variable html_parser : pystr -> node.

(** [resp.text]: the content decoded under the response's encoding. *)
Variable resp_text : Response -> pystr.

Variable w : World.

(** ** [get_latest_html] *)

(** One [requests.get] with [raise_for_status]. *)
Definition requests_get (url : pystr) (timeout : nat) : M attempt :=
  fun st =>
    (Ok (net w (tid st) url (requests_made st)),
     mkThread (tid st) (S (requests_made st)) (trace st ++ [EvGet url timeout])).

Definition sleep (seconds : nat) : M unit := log (EvSleep seconds).

(** Truthiness of [force_encoding: str | None]. *)
Definition opt_truthy (o : option pystr) : bool :=
  match o with Some s => truthy s | None => false end.

(** The [if force_encoding: ... elif resp.encoding is None: ...] part. *)
Definition set_encoding (force_encoding : option pystr) (resp : Response)
  : Response :=
  if opt_truthy force_encoding then
    mkResponse force_encoding (apparent_encoding resp) (content resp)
  else
    match encoding resp with
    | None =>
        let enc := if opt_truthy (apparent_encoding resp)
                   then apparent_encoding resp else Some (lit "utf-8") in
        mkResponse enc (apparent_encoding resp) (content resp)
    | Some _ => resp
    end.

(** The body of [for attempt in range(RETRIES + 1)], over the attempt
    numbers still to come; falling out of the loop returns the empty
    string. *)
Fixpoint fetch_loop (attempts : list nat) (url : pystr)
  (force_encoding : option pystr) : M pystr :=
  match attempts with
  | [] => ret []
  | attempt :: rest =>
      r <- requests_get url 30 ;;
      match r with
      | Answered resp => ret (resp_text (set_encoding force_encoding resp))
      | Failed msg =>
          let e := RequestException msg in
          if attempt <? RETRIES then
            sleep RETRY_DELAY ;;; fetch_loop rest url force_encoding
          else
            raise (RuntimeError
                     (lit "Failed to fetch " ++ url ++ lit ": " ++ exn_str e) e)
      end
  end.

Definition get_latest_html (url : pystr) (force_encoding : option pystr)
  : M pystr :=
  fetch_loop (seq 0 (RETRIES + 1)) url force_encoding.

(** ** [scrape_career] *)

Definition fieldnames : list pystr :=
  [lit "apellido_paterno"; lit "apellido_materno"; lit "primer_nombre";
   lit "segundo_nombre"; lit "anio_titulacion"; lit "nombre_completo"].

(** [output_dir / f"{safe_name}.csv"] *)
Definition csv_path (output_dir safe_name : pystr) : pystr :=
  output_dir ++ lit "/" ++ safe_name ++ lit ".csv".

(** The loop [for nombre_str, anio_str in rows], gathering the lines handed
    to [writer.writerow] in the order of [fieldnames]. *)
Fixpoint csv_lines (rows : list (pystr * pystr)) : result (list (list pystr)) :=
  match rows with
  | [] => Ok []
  | (nombre_str, anio_str) :: rest =>
      rbind (split_name nombre_str) (fun parts =>
      rbind (csv_lines rest) (fun lines =>
      Ok ([apellido_paterno parts; apellido_materno parts;
           primer_nombre parts; segundo_nombre parts;
           anio_str; nombre_str] :: lines)))
  end.

(** [with open(out_path, "w", ...) as f:] and what is written in it: the
    header line, then one line per row. *)
Definition write_csv (out_path : pystr) (rows : list (pystr * pystr)) : M unit :=
  match disk w out_path with
  | Some msg => raise (OSError msg)
  | None =>
      lines <- lift (csv_lines rows) ;;
      log (EvWriteCsv out_path (fieldnames :: lines))
  end.

Definition scrape_career (career_name url output_dir : pystr) : M nat :=
  html <- get_latest_html url None ;;
  rows <- lift (parse_titulados_table html_parser html) ;;
  rows <- (if is_nil rows && contains (lit "titulados.asp") url then
             html <- get_latest_html url (Some (lit "iso-8859-1")) ;;
             lift (parse_titulados_table html_parser html)
           else ret rows) ;;
  let safe_name := sanitize_filename career_name in
  let out_path := csv_path output_dir safe_name in
  write_csv out_path rows ;;;
  ret (len rows).

(** ** [main] *)

(** A future of the pool: the career it was submitted for and how the
    worker's call of [scrape_career] ended, with what the worker thread did. *)
Record Future : Type := mkFuture {
  fut_name : pystr;
  fut_url : pystr;
  fut_outcome : result nat;
  fut_trace : list event
}.

(** [executor.submit(scrape_career, name, url, output_path)] for the
    [i]-th career: the call runs in a thread of its own. *)
Definition submit (output_path : pystr) (i : nat) (career : pystr * pystr)
  : Future :=
  let '(name, url) := career in
  let '(r, st) := scrape_career name url output_path (new_thread (S i)) in
  mkFuture name url r (trace st).

(** The dictionary comprehension building [futures], career by career. *)
Fixpoint submit_all (output_path : pystr) (i : nat)
  (careers : list (pystr * pystr)) : list Future :=
  match careers with
  | [] => []
  | career :: rest => submit output_path i career :: submit_all output_path (S i) rest
  end.

Definition insert_at {A} (k : nat) (x : A) (xs : list A) : list A :=
  firstn k xs ++ x :: skipn k xs.

(** [as_completed(futures)]: every future once, in the order they
    complete, which the scheduler decides. *)
Fixpoint as_completed {A} (choices : list nat) (futures : list A) : list A :=
  match futures with
  | [] => []
  | f :: rest => insert_at (hd 0 choices) f (as_completed (tl choices) rest)
  end.

(** The entries of [results]: name, count, and [None] or [str(e)]. *)
Definition entry : Type := pystr * nat * option pystr.

Definition e_is_none (r : entry) : bool :=
  match r with (_, _, None) => true | _ => false end.

Definition e_truthy (r : entry) : bool :=
  match r with (_, _, Some e) => truthy e | _ => false end.

(** The loop [for future in as_completed(futures)]. *)
Fixpoint collect_loop (completed : list Future) (results : list entry)
  : M (list entry) :=
  match completed with
  | [] => ret results
  | future :: rest =>
      let name := fut_name future in
      match fut_outcome future with
      | Ok count =>
          log (EvPrint (MsgOk name count)) ;;;
          collect_loop rest (results ++ [(name, count, None)])
      | Raise e =>
          log (EvPrint (MsgFail name (exn_str e))) ;;;
          collect_loop rest (results ++ [(name, 0, Some (exn_str e))])
      end
  end.

(** [sum(1 for _, c, e in results if e is None)] *)
Definition count_ok (results : list entry) : nat :=
  list_sum (map (fun _ => 1) (filter e_is_none results)).

(** [sum(c for _, c, e in results if e is None)] *)
Definition sum_rows (results : list entry) : nat :=
  list_sum (map (fun r => snd (fst r)) (filter e_is_none results)).

(** The body of [main], run by the main thread.  It hands back the
    futures it submitted, where the Python function returns [None]. *)
Definition main_body : M (list Future) :=
  log (EvMkdir OUTPUT_DIR) ;;;
  log (EvPrint MsgFetching) ;;;
  html <- get_latest_html PROGRAMAS_URL None ;;
  careers <- lift (parse_programas upper html_parser html) ;;
  if is_nil careers then
    log (EvPrint MsgNoLinks) ;;;
    ret []
  else
    log (EvPrint (MsgFound (len careers))) ;;;
    let futures := submit_all OUTPUT_DIR 0 careers in
    results <- collect_loop (as_completed (sched w) futures) [] ;;
    let ok := count_ok results in
    let total_rows := sum_rows results in
    log (EvPrint (MsgDone ok (len careers) OUTPUT_DIR total_rows)) ;;;
    (if existsb e_truthy (filter e_truthy results) then
       log (EvPrint MsgSomeFailed)
     else ret tt) ;;;
    ret futures.

Definition main : result (list Future) * Thread := main_body (new_thread 0).

End Scraper.

(* ================================================================== *)
(** * Notions the statements use *)
(* ================================================================== *)

(** A whitespace token: not empty, no whitespace inside. *)
Definition no_space (t : pystr) : Prop := forallb (fun c => negb (is_space c)) t = true.

Definition is_token (t : pystr) : Prop := t <> [] /\ no_space t.

(** The fields of a name record, in their order. *)
Definition name_fields (p : NameParts) : list pystr :=
  [apellido_paterno p; apellido_materno p; primer_nombre p; segundo_nombre p].

(** Splitting the non-empty fields again and putting the tokens together. *)
Definition resplit (p : NameParts) : list pystr :=
  flat_map split (filter truthy (name_fields p)).

(** What [k] failed attempts followed by a retry leave in the trace. *)
Definition retry_events (url : pystr) (k : nat) : list event :=
  concat (repeat [EvGet url 30; EvSleep RETRY_DELAY] k).

(** A thread after [n] more requests and the events [evs]. *)
Definition advance (st : Thread) (n : nat) (evs : list event) : Thread :=
  mkThread (tid st) (requests_made st + n) (trace st ++ evs).

(** The [j]-th request from now on of the thread, to [url], fails. *)
Definition fails_at (w : World) (st : Thread) (url : pystr) (j : nat) : Prop :=
  exists msg, net w (tid st) url (requests_made st + j) = Failed msg.

(** ** Tables and anchors, as [parse_programas] sees them *)

(** The section a table opens: the upper-cased text of the only cell of
    its first row, when that row has exactly one cell. *)
Definition section_name_of (upper : pystr -> pystr) (table : node)
  : option pystr :=
  match find [lit "tr"] table with
  | None => None
  | Some first_row =>
      match find_all [lit "th"; lit "td"] first_row with
      | [cell] => Some (upper (get_text_strip cell))
      | _ => None
      end
  end.

Definition opens (upper : pystr -> pystr) (marker : pystr) (table : node) : bool :=
  match section_name_of upper table with
  | Some s => pystr_eqb s marker
  | None => false
  end.

Definition is_terminator upper := opens upper (lit "DOCTORADO").
Definition is_target upper := opens upper (lit "LICENCIATURA").

(** The link target of an anchor, as the parser reads it. *)
Definition href_of (a : node) : pystr := strip (tag_get a (lit "href") []).

(** An anchor qualifies when its target holds the path segment and the
    query parameter and its visible text is not empty. *)
Definition qualifies (a : node) : bool :=
  contains (lit "titulados.asp") (href_of a)
  && contains (lit "prog=") (href_of a)
  && truthy (get_text_strip a).

(** The address of a career page: targets starting with [http] are kept,
    targets starting with a slash are put after the origin of the site,
    the others after the base address and a slash. *)
Definition resolve_url (href : pystr) : pystr :=
  if startswith href (lit "http") then href
  else if startswith href (lit "/") then lit "https://escolar1.rhon.itam.mx" ++ href
  else BASE_URL ++ lit "/" ++ href.

Definition link_of (a : node) : list (pystr * pystr) :=
  if qualifies a then [(get_text_strip a, resolve_url (href_of a))] else [].

(** What one table contributes: the links of the qualifying anchors
    below it, in document order. *)
Definition table_links (table : node) : list (pystr * pystr) :=
  flat_map link_of (find_all_a_href table).

(** ** Tables as [parse_titulados_table] sees them *)

Definition header_text_of (table : node) : pystr :=
  join (lit " ") (header_cells_of table).

Definition has_name_markers (header_text : pystr) : bool :=
  contains (lit "Nombre") header_text && contains (lit "alumno") header_text.

Definition has_year_marker (header_text : pystr) : bool :=
  contains (lit "titulaci") header_text.

Definition is_data_table (table : node) : bool :=
  has_name_markers (header_text_of table) && has_year_marker (header_text_of table).

(** The rows after the header row of a table. *)
Definition data_rows_of (table : node) : list node :=
  slice_from (find_all [lit "tr"] table) 1.

(** ** Sample documents *)

(** [str.upper] on ASCII letters; other code points are left alone. *)
Definition ascii_upper (s : pystr) : pystr :=
  map (fun c => if (97 <=? c)%N && (c <=? 122)%N then (c - 32)%N else c) s.

Definition document (contents : list node) : node := Tag (lit "[document]") [] contents.
Definition table (contents : list node) : node := Tag (lit "table") [] contents.
Definition tr (contents : list node) : node := Tag (lit "tr") [] contents.
Definition td (contents : list node) : node := Tag (lit "td") [] contents.
Definition th (contents : list node) : node := Tag (lit "th") [] contents.
Definition anchor (href text : pystr) : node :=
  Tag (lit "a") [(lit "href", href)] [Text text].

(** A section table: a one-cell header row, then one row per anchor. *)
Definition section_table (title : pystr) (anchors : list node) : node :=
  table (tr [td [Text title]] :: map (fun a => tr [td [a]]) anchors).

Definition licenciatura_1 : node :=
  section_table (lit "  Licenciatura ")
    [anchor (lit "titulados.asp?prog=1") (lit "ACTUARIA");
     anchor (lit "/titulacion/titulados.asp?prog=2") (lit "ECONOMIA");
     anchor (lit " http://otro.mx/titulados.asp?prog=3 ") (lit "DERECHO");
     anchor (lit "planes.asp?prog=4") (lit "PLAN")].

Definition doctorado_1 : node :=
  section_table (lit "DOCTORADO")
    [anchor (lit "titulados.asp?prog=90") (lit "DOCTORADO EN ECONOMIA")].

Definition licenciatura_2 : node :=
  section_table (lit "LICENCIATURA")
    [anchor (lit "titulados.asp?prog=5") (lit "MATEMATICAS")].

(** Target tier, terminator tier, target tier again. *)
Definition index_doc : node :=
  document [licenciatura_1; doctorado_1; licenciatura_2].


(** A target table with one anchor whose target starts with two slashes. *)
Definition slashes_index_doc : node :=
  document [section_table (lit "LICENCIATURA")
              [anchor (lit "//espejo.mx/titulados.asp?prog=1") (lit "ACTUARIA")]].

Definition listing_table (head : list pystr) (rows : list (pystr * pystr)) : node :=
  table (tr (map (fun h => th [Text h]) head)
         :: map (fun r => tr [td [Text (fst r)]; td [Text (snd r)]]) rows).

(** A table with the name marker only, then two data tables. *)
Definition listing_doc_pre : list node :=
  [listing_table [lit "Nombre del alumno"; lit "Carrera"] [(lit "X Y Z", lit "1999")]].
Definition listing_doc_first : node :=
  listing_table [lit "Nombre del alumno";
                 lit "A" ++ [241%N] ++ lit "o de titulaci" ++ [243%N] ++ lit "n"]
    [(lit "GARCIA LOPEZ MARIA JOSE", lit "2020"); ([], []); (lit "PEREZ", [])].
Definition listing_doc_post : list node :=
  [listing_table [lit "Nombre del alumno"; lit "Fecha de titulacion"]
     [(lit "RUIZ SOTO ANA", lit "2021")]].
Definition listing_doc : node :=
  document (listing_doc_pre ++ listing_doc_first :: listing_doc_post).

(** ** The outcome of a future, as [main] reports it *)



Definition rows_written (f : Future) : nat :=
  match fut_outcome f with Ok count => count | Raise _ => 0 end.

Definition entry_of (f : Future) : entry :=
  match fut_outcome f with
  | Ok count => (fut_name f, count, None)
  | Raise e => (fut_name f, 0, Some (exn_str e))
  end.

(** The line printed when the outcome of a future is collected. *)
Definition report_line (f : Future) : event :=
  EvPrint match fut_outcome f with
          | Ok count => MsgOk (fut_name f) count
          | Raise e => MsgFail (fut_name f) (exn_str e)
          end.

(** The main thread when it starts fetching the index page. *)
Definition main_started : Thread :=
  mkThread 0 0 [EvMkdir OUTPUT_DIR; EvPrint MsgFetching].

(** ** Sample worlds *)

(** A decoder for the samples: the bytes come out as they are under
    ISO-8859-1 and as one question mark under any other encoding. *)
Definition sample_text (r : Response) : pystr :=
  match encoding r with
  | Some enc => if pystr_eqb enc (lit "iso-8859-1") then content r else lit "?"
  | None => lit "?"
  end.

(** A parser for the samples: three page bodies stand for three trees,
    anything else for the empty document. *)
Definition sample_parser (html : pystr) : node :=
  if pystr_eqb html (lit "INDEX") then index_doc
  else if pystr_eqb html (lit "LISTING") then listing_doc
  else document [].

Definition latin1_page (body : pystr) : Response :=
  mkResponse (Some (lit "iso-8859-1")) None body.

Definition undeclared_page (body : pystr) : Response :=
  mkResponse None (Some (lit "utf-8")) body.

(** The first request of every thread times out, the second is answered. *)
Definition flaky_world : World :=
  mkWorld (fun _ _ k => if k <? 1 then Failed (lit "timed out")
                        else Answered (latin1_page (lit "LISTING")))
          (fun _ => None) [].

(** Nothing answers. *)
Definition dead_world : World :=
  mkWorld (fun _ _ _ => Failed (lit "connection reset")) (fun _ => None) [].

(** Listing pages are served without a charset. *)
Definition undeclared_world : World :=
  mkWorld (fun _ _ _ => Answered (undeclared_page (lit "LISTING")))
          (fun _ => None) [].

(** Every page is empty. *)
Definition empty_world : World :=
  mkWorld (fun _ _ _ => Answered (latin1_page (lit "EMPTY")))
          (fun _ => None) [].

(** Every page is the sample listing. *)
Definition listing_world : World :=
  mkWorld (fun _ _ _ => Answered (latin1_page (lit "LISTING")))
          (fun _ => None) [].

(** The main thread gets the sample index; the worker of the second
    career finds the network down, the other workers get the sample
    listing; the futures complete out of order. *)
Definition mixed_world : World :=
  mkWorld (fun t _ _ =>
             match t with
             | 0 => Answered (latin1_page (lit "INDEX"))
             | 2 => Failed (lit "connection reset")
             | _ => Answered (latin1_page (lit "LISTING"))
             end)
          (fun _ => None) [0; 1; 0].

Definition listing_url : pystr :=
  lit "https://escolar1.rhon.itam.mx/titulacion/titulados.asp?prog=1".

(** The careers of [index_doc]. *)
Definition sample_careers : list (pystr * pystr) :=
  [(lit "ACTUARIA",
    lit "https://escolar1.rhon.itam.mx/titulacion/titulados.asp?prog=1");
   (lit "ECONOMIA",
    lit "https://escolar1.rhon.itam.mx/titulacion/titulados.asp?prog=2");
   (lit "DERECHO", lit "http://otro.mx/titulados.asp?prog=3")].

(** The main thread once the index page came at the first attempt. *)
Definition main_fetched : Thread :=
  mkThread 0 1 [EvMkdir OUTPUT_DIR; EvPrint MsgFetching; EvGet PROGRAMAS_URL 30].


(** ** Further notions *)

(** Neither the first nor the last character is whitespace. *)
Definition trimmed (s : pystr) : Prop :=
  forall c, hd_error s = Some c \/ hd_error (rev s) = Some c ->
            is_space c = false.


(** A future that raised an exception whose text is not empty. *)
Definition flagged (f : Future) : bool :=
  match fut_outcome f with
  | Raise e => truthy (exn_str e)
  | Ok _ => false
  end.

(** ** The file names the three scripts share *)




(** [build_mujeres_csv.py] *)
Module BuildMujeres.

Definition sanitize_filename (name : pystr) : pystr :=
  let sanitized := re_sub_unsafe name in
  or_else (strip sanitized) (lit "unknown").


Definition FIELDNAMES : list pystr :=
  [lit "apellido_paterno"; lit "apellido_materno"; lit "primer_nombre";
   lit "segundo_nombre"; lit "anio_titulacion"; lit "nombre_completo"].

(** A CSV file is given by the records [csv.reader] yields for it, and a
    file written through [csv.writer] by the records handed to it.

    A row of [csv.DictReader]: the entries under the field names, each a
    string or [None], and the list under the key [None] when the record
    is longer than the header. *)
Record rowdict : Type := mkRow {
  fields : list (pystr * option pystr);
  rest : option (list pystr)
}.

(** [d[k] = v] on the entries of a row. *)
Fixpoint set_field (d : list (pystr * option pystr)) (k : pystr)
  (v : option pystr) : list (pystr * option pystr) :=
  match d with
  | [] => [(k, v)]
  | (k', v') :: d' =>
      if pystr_eqb k' k then (k', v) :: d' else (k', v') :: set_field d' k v
  end.

Fixpoint field_get (d : list (pystr * option pystr)) (k : pystr)
  : option (option pystr) :=
  match d with
  | [] => None
  | (k', v) :: d' => if pystr_eqb k' k then Some v else field_get d' k
  end.

(** [dict(zip(fieldnames, row))], entry by entry. *)
Fixpoint zip_fields (d : list (pystr * option pystr))
  (fieldnames row : list pystr) : list (pystr * option pystr) :=
  match fieldnames, row with
  | k :: fieldnames', x :: row' =>
      zip_fields (set_field d k (Some x)) fieldnames' row'
  | _, _ => d
  end.

(** The dictionary [DictReader] makes of one record: a longer record
    leaves its tail under the key [None], a shorter one gets [None] under
    the field names it does not reach. *)
Definition dictreader_row (fieldnames row : list pystr) : rowdict :=
  let d := zip_fields [] fieldnames row in
  let lf := len fieldnames in
  let lr := len row in
  if lf <? lr then mkRow d (Some (skipn lf row))
  else if lr <? lf then
    mkRow (fold_left (fun d key => set_field d key None)
             (skipn lr fieldnames) d) None
  else mkRow d None.

(** [csv.DictReader(f)]: the first record gives the field names, empty
    records are passed over. *)
Definition DictReader (records : list (list pystr)) : list rowdict :=
  match records with
  | [] => []
  | fieldnames :: rows =>
      map (dictreader_row fieldnames)
          (filter (fun r => negb (is_nil r)) rows)
  end.

(** [(row.get(key) or "")] *)
Definition get_or_empty (row : rowdict) (key : pystr) : pystr :=
  match field_get (fields row) key with
  | Some (Some s) => s
  | _ => []
  end.

Inductive error : Type := ValueError.

Inductive outcome (A : Type) : Type :=
| Done (a : A)
| Fails (e : error).
Arguments Done {A} a.
Arguments Fails {A} e.

(** [DictWriter.writerow(row)] with the default [extrasaction]: a key
    that is no field name raises [ValueError]; otherwise the values go
    out in the order of the field names, the empty string for a missing
    key or for [None]. *)
Definition writerow (fieldnames : list pystr) (row : rowdict)
  : outcome (list pystr) :=
  let wrong :=
    filter (fun kv => negb (existsb (pystr_eqb (fst kv)) fieldnames))
           (fields row) in
  match wrong, rest row with
  | [], None =>
      Done (map (fun key => match field_get (fields row) key with
                            | Some (Some s) => s
                            | _ => []
                            end) fieldnames)
  | _, _ => Fails ValueError
  end.

(** The loop [for row in reader] of [write_mujeres_csv]: [written] is
    what the output file holds so far. *)
Fixpoint mujeres_loop (upper : pystr -> pystr) (female_names : list pystr)
  (rows : list rowdict) (written : list (list pystr)) (rows_written : nat)
  : list (list pystr) * outcome nat :=
  match rows with
  | [] => (written, Done rows_written)
  | row :: rows' =>
      let primer := upper (strip (get_or_empty row (lit "primer_nombre"))) in
      if existsb (pystr_eqb primer) female_names then
        match writerow FIELDNAMES row with
        | Done line =>
            mujeres_loop upper female_names rows' (written ++ [line])
              (rows_written + 1)
        | Fails e => (written, Fails e)
        end
      else mujeres_loop upper female_names rows' written rows_written
  end.

(** [write_mujeres_csv], from the records of the career file and the set
    of female names (a set is read through membership only): the records
    of the file written and the count returned, or the exception. *)
Definition write_mujeres_csv (upper : pystr -> pystr)
  (career_records : list (list pystr)) (female_names : list pystr)
  : list (list pystr) * outcome nat :=
  mujeres_loop upper female_names (DictReader career_records) [FIELDNAMES] 0.

(** The test of the loop, read on a record of six fields: the third one
    is the first name. *)
Definition first_name_in (upper : pystr -> pystr) (female_names : list pystr)
  (record : list pystr) : bool :=
  existsb (pystr_eqb (upper (strip (nth 2 record [])))) female_names.

End BuildMujeres.

(** [analisis/estadisticas_8m.py] *)
Module Estadisticas.

(** [count_csv_rows], from the records of the file: [next(reader, None)]
    takes the header if there is one, the others are counted. *)
Definition count_csv_rows (records : list (list pystr)) : nat :=
  match records with
  | [] => list_sum []
  | _ :: rows => list_sum (map (fun _ => 1) rows)
  end.



End Estadisticas.

(** ** Responses by their status *)

(** What comes of one [requests.get(url, timeout=30)]: no response
    (timeout, connection reset, and the like: the call raises a
    [RequestException] with this text), or a response with its status
    code; [error_text] is the text of the [HTTPError] that
    [raise_for_status] raises for the response when it raises. *)
Inductive exchange : Type :=
| NoResponse (msg : pystr)
| HttpResponse (status : nat) (error_text : pystr) (resp : Response).

(** [requests.get] followed by [resp.raise_for_status()], which raises
    [HTTPError], a [RequestException], for the statuses from 400 to 599
    and for no other. *)
Definition attempt_of (x : exchange) : attempt :=
  match x with
  | NoResponse msg => Failed msg
  | HttpResponse status error_text resp =>
      if (400 <=? status) && (status <? 600) then Failed error_text
      else Answered resp
  end.

(** The exchanges that make an attempt fail. *)
Definition refused (x : exchange) : Prop :=
  match x with
  | NoResponse _ => True
  | HttpResponse status _ _ => 400 <= status < 600
  end.

(** A world whose network is given exchange by exchange. *)
Definition http_world (xnet : nat -> pystr -> nat -> exchange)
  (disk : pystr -> option pystr) (sched : list nat) : World :=
  mkWorld (fun t url k => attempt_of (xnet t url k)) disk sched.

(** Every request is answered [300 Multiple Choices], with a body. *)
Definition multiple_choices_world : World :=
  http_world (fun _ _ _ =>
                HttpResponse 300 (lit "300 Multiple Choices")
                  (latin1_page (lit "LISTING")))
             (fun _ => None) [].

(** The first request gets no response, the second is answered
    [503 Service Unavailable], the third [200 OK]. *)
Definition recovering_net (t : nat) (url : pystr) (k : nat) : exchange :=
  match k with
  | 0 => NoResponse (lit "timed out")
  | 1 => HttpResponse 503 (lit "503 Server Error") (latin1_page [])
  | _ => HttpResponse 200 [] (latin1_page (lit "LISTING"))
  end.

(** Every request is answered [404 Not Found]. *)
Definition not_found_net (t : nat) (url : pystr) (k : nat) : exchange :=
  HttpResponse 404 (lit "404 Client Error") (latin1_page []).

(* ================================================================== *)
(** * Strings: strip, split, join *)
(* ================================================================== *)

Lemma is_space_blank : is_space 32%N = true.
Proof. reflexivity. Qed.

Lemma split_from_blank cur s :
  split_from cur (32%N :: s) = emit cur (split_from [] s).
Proof. reflexivity. Qed.

Lemma no_space_app a b : no_space a -> no_space b -> no_space (a ++ b).
Proof.
  unfold no_space. intros Ha Hb. rewrite forallb_app, Ha, Hb. reflexivity.
Qed.

Lemma emit_nonempty cur rest : cur <> [] -> emit cur rest = cur :: rest.
Proof. destruct cur; [congruence | reflexivity]. Qed.

(** Reading a run of non-blank characters only grows the current token. *)
Lemma split_from_run t : forall cur s,
  no_space t -> split_from cur (t ++ s) = split_from (cur ++ t) s.
Proof.
  induction t as [|c t IH]; intros cur s Ht.
  - now rewrite app_nil_r.
  - unfold no_space in Ht. simpl in Ht. apply andb_prop in Ht as [Hc Ht].
    simpl. apply negb_true_iff in Hc. rewrite Hc.
    rewrite IH by exact Ht. now rewrite <- app_assoc.
Qed.

Lemma split_from_blanks ws : forall cur,
  forallb is_space ws = true -> split_from cur ws = emit cur [].
Proof.
  induction ws as [|c ws IH]; intros cur H; simpl in *.
  - reflexivity.
  - apply andb_prop in H as [Hc Hws]. rewrite Hc.
    rewrite IH by exact Hws. reflexivity.
Qed.

Lemma split_from_trailing s : forall cur ws,
  forallb is_space ws = true -> split_from cur (s ++ ws) = split_from cur s.
Proof.
  induction s as [|c s IH]; intros cur ws H.
  - simpl app. now rewrite split_from_blanks.
  - simpl. destruct (is_space c); now rewrite IH.
Qed.

Lemma lstrip_decompose s :
  exists ws, forallb is_space ws = true /\ s = ws ++ lstrip s.
Proof.
  induction s as [|c s [ws [Hws Hs]]].
  - exists []. now split.
  - simpl. destruct (is_space c) eqn:Hc.
    + exists (c :: ws). simpl. rewrite Hc, Hws. split; [reflexivity | now f_equal].
    + exists []. now split.
Qed.

Lemma rstrip_decompose s :
  exists ws, forallb is_space ws = true /\ s = rstrip s ++ ws.
Proof.
  destruct (lstrip_decompose (rev s)) as [ws [Hws Hs]].
  exists (rev ws). split.
  - rewrite forallb_forall in *. intros x Hx. apply Hws. now apply in_rev.
  - unfold rstrip. rewrite <- rev_app_distr, <- Hs. now rewrite rev_involutive.
Qed.

Lemma split_lstrip s : split (lstrip s) = split s.
Proof.
  unfold split. induction s as [|c s IH]; simpl; [reflexivity|].
  destruct (is_space c) eqn:Hc; [exact IH|].
  simpl. now rewrite Hc.
Qed.

Lemma split_rstrip s : split (rstrip s) = split s.
Proof.
  destruct (rstrip_decompose s) as [ws [Hws Hs]].
  unfold split. rewrite Hs at 2. now rewrite split_from_trailing.
Qed.

(** Stripping first does not change the tokens. *)
Lemma split_strip s : split (strip s) = split s.
Proof. unfold strip. now rewrite split_rstrip, split_lstrip. Qed.

Lemma split_from_tokens s : forall cur,
  no_space cur -> Forall is_token (split_from cur s).
Proof.
  induction s as [|c s IH]; intros cur Hcur; simpl.
  - destruct cur; simpl; constructor; [|constructor]. split; [discriminate | exact Hcur].
  - destruct (is_space c) eqn:Hc.
    + specialize (IH [] eq_refl).
      destruct cur; simpl; [exact IH|]. constructor; [|exact IH].
      split; [discriminate | exact Hcur].
    + apply IH. apply no_space_app; [exact Hcur|].
      unfold no_space. simpl. now rewrite Hc.
Qed.

(** Every element of [s.split()] is a token. *)
Lemma split_tokens s : Forall is_token (split s).
Proof. apply split_from_tokens. reflexivity. Qed.

(** Joining tokens by one blank and splitting again gives them back. *)
Lemma split_join ts :
  Forall is_token ts -> split (join (lit " ") ts) = ts.
Proof.
  unfold split. induction 1 as [|t ts [Hne Hns] Hts IH]; [reflexivity|].
  destruct ts as [|u ts].
  - simpl. rewrite <- (app_nil_r t) at 1.
    rewrite split_from_run by exact Hns. simpl. now apply emit_nonempty.
  - change (join (lit " ") (t :: u :: ts))
      with (t ++ 32%N :: join (lit " ") (u :: ts)).
    rewrite split_from_run by exact Hns. simpl app.
    rewrite split_from_blank, IH. now apply emit_nonempty.
Qed.

Lemma split_token t : is_token t -> split t = [t].
Proof.
  intros H. change t with (join (lit " ") [t]) at 1.
  apply split_join. now constructor.
Qed.

Lemma join_nonempty (sep t : pystr) (ts : list pystr) :
  t <> [] -> join sep (t :: ts) <> [].
Proof.
  intros Ht. destruct ts; simpl; [exact Ht|].
  destruct t; [congruence | discriminate].
Qed.

Lemma truthy_nonempty (t : pystr) : t <> [] -> truthy t = true.
Proof. destruct t; [congruence | reflexivity]. Qed.

(* ================================================================== *)
(** * [split_name]: shape and token recovery *)
(* ================================================================== *)

Ltac inv_tokens H :=
  repeat match type of H with
         | Forall _ (_ :: _) =>
             let Ht := fresh "Ht" in
             apply Forall_cons_iff in H; destruct H as [Ht H]
         end.

(** The record by the tokens of the argument; no index is out of range. *)
Lemma split_name_by_tokens (full_name : pystr) :
  split_name full_name
  = Ok match split full_name with
       | [] => mkNameParts [] [] [] []
       | [t1] => mkNameParts t1 [] [] []
       | [t1; t2] => mkNameParts t1 [] t2 []
       | [t1; t2; t3] => mkNameParts t1 t2 t3 []
       | t1 :: t2 :: t3 :: t4 :: more =>
           mkNameParts t1 t2 t3 (join (lit " ") (t4 :: more))
       end.
Proof.
  unfold split_name. rewrite split_strip.
  destruct (split full_name) as [|t1 [|t2 [|t3 [|t4 more]]]]; reflexivity.
Qed.

(** C1.  [split_name] cuts its argument into whitespace tokens (each one
    non-empty and free of whitespace, stripping beforehand changes
    nothing) and the token count alone fixes the record: four or more
    tokens give both surnames, the first name and the remaining tokens
    joined by single blanks as second name; three give both surnames and
    the first name; two give the paternal surname and the first name; one
    gives the paternal surname; none gives four empty fields. *)
Theorem split_name_shape (full_name : pystr) :
  Forall is_token (split full_name) /\
  (forall t1 t2 t3 t4 more,
      split full_name = t1 :: t2 :: t3 :: t4 :: more ->
      split_name full_name =
      Ok (mkNameParts t1 t2 t3 (join (lit " ") (t4 :: more)))) /\
  (forall t1 t2 t3,
      split full_name = [t1; t2; t3] ->
      split_name full_name = Ok (mkNameParts t1 t2 t3 [])) /\
  (forall t1 t2,
      split full_name = [t1; t2] ->
      split_name full_name = Ok (mkNameParts t1 [] t2 [])) /\
  (forall t1,
      split full_name = [t1] ->
      split_name full_name = Ok (mkNameParts t1 [] [] [])) /\
  (split full_name = [] ->
      split_name full_name = Ok (mkNameParts [] [] [] [])).
Proof.
  split; [apply split_tokens|].
  rewrite split_name_by_tokens.
  repeat split; intros; rewrite H; reflexivity.
Qed.

Lemma split_name_shape_witness :
  split_name (lit "  DE LA O  ANA MARIA  LUISA ")
  = Ok (mkNameParts (lit "DE") (lit "LA") (lit "O") (lit "ANA MARIA LUISA"))
  /\ split_name (lit "GARCIA LOPEZ MARIA")
     = Ok (mkNameParts (lit "GARCIA") (lit "LOPEZ") (lit "MARIA") [])
  /\ split_name (lit "GARCIA MARIA")
     = Ok (mkNameParts (lit "GARCIA") [] (lit "MARIA") [])
  /\ split_name (lit "GARCIA") = Ok (mkNameParts (lit "GARCIA") [] [] [])
  /\ split_name (lit "   ") = Ok (mkNameParts [] [] [] []).
Proof.
  split; [|split; [|split; [|split]]].
  - apply (proj1 (proj2 (split_name_shape _))
             (lit "DE") (lit "LA") (lit "O") (lit "ANA")
             [lit "MARIA"; lit "LUISA"]).
    reflexivity.
  - apply (proj1 (proj2 (proj2 (split_name_shape _)))). reflexivity.
  - apply (proj1 (proj2 (proj2 (proj2 (split_name_shape _))))). reflexivity.
  - apply (proj1 (proj2 (proj2 (proj2 (proj2 (split_name_shape _)))))).
    reflexivity.
  - apply (proj2 (proj2 (proj2 (proj2 (proj2 (split_name_shape _)))))).
    reflexivity.
Defined.

(** [split_name] never raises: the guards on the token count keep every
    index in range. *)
Lemma split_name_total full_name : exists parts, split_name full_name = Ok parts.
Proof. rewrite split_name_by_tokens. eauto. Qed.

(** C9.  Splitting the non-empty fields of the record [split_name]
    returns on whitespace again, and putting the tokens together in the
    order of the fields, gives exactly the whitespace tokens of the
    argument, the tokens joined into the second name included. *)
Theorem split_name_recovers_tokens (full_name : pystr) :
  exists parts,
    split_name full_name = Ok parts /\ resplit parts = split full_name.
Proof.
  eexists. split; [apply split_name_by_tokens|].
  pose proof (split_tokens full_name) as Htok.
  destruct (split full_name) as [|t1 [|t2 [|t3 [|t4 more]]]];
    [reflexivity| | | |]; inv_tokens Htok;
    unfold resplit, name_fields;
    cbn [apellido_paterno apellido_materno primer_nombre segundo_nombre filter].
  - rewrite (truthy_nonempty (proj1 Ht)). cbn.
    now rewrite (split_token Ht).
  - rewrite (truthy_nonempty (proj1 Ht)), (truthy_nonempty (proj1 Ht0)). cbn.
    now rewrite (split_token Ht), (split_token Ht0).
  - rewrite (truthy_nonempty (proj1 Ht)), (truthy_nonempty (proj1 Ht0)),
      (truthy_nonempty (proj1 Ht1)). cbn.
    now rewrite (split_token Ht), (split_token Ht0), (split_token Ht1).
  - assert (Hrest : Forall is_token (t4 :: more)) by now constructor.
    rewrite (truthy_nonempty (proj1 Ht)), (truthy_nonempty (proj1 Ht0)),
      (truthy_nonempty (proj1 Ht1)),
      (truthy_nonempty (join_nonempty (lit " ") more (proj1 Ht2))).
    cbn [flat_map].
    rewrite (split_token Ht), (split_token Ht0), (split_token Ht1),
      (split_join Hrest).
    now rewrite app_nil_r.
Qed.

(* ================================================================== *)
(** * [sanitize_filename] *)
(* ================================================================== *)

Lemma unsafe_char_not_space c : unsafe_char c = true -> is_space c = false.
Proof.
  unfold unsafe_char. simpl. intros H.
  repeat (apply orb_prop in H; destruct H as [H|H]);
    try discriminate; apply N.eqb_eq in H; subst c; reflexivity.
Qed.

Lemma underscore_not_space : is_space underscore = false.
Proof. reflexivity. Qed.

Lemma lstrip_blanks ws : forallb is_space ws = true -> lstrip ws = [].
Proof.
  induction ws as [|c ws IH]; simpl; [reflexivity|].
  intros H. apply andb_prop in H as [Hc Hws]. rewrite Hc. now apply IH.
Qed.

Lemma strip_blanks ws : forallb is_space ws = true -> strip ws = [].
Proof. intros H. unfold strip. now rewrite lstrip_blanks. Qed.

Lemma lstrip_head s c : hd_error (lstrip s) = Some c -> is_space c = false.
Proof.
  induction s as [|a s IH]; simpl; [discriminate|].
  destruct (is_space a) eqn:Ha; [exact IH|].
  simpl. intros [= <-]. exact Ha.
Qed.

Lemma rstrip_last s c : hd_error (rev (rstrip s)) = Some c -> is_space c = false.
Proof. unfold rstrip. rewrite rev_involutive. apply lstrip_head. Qed.

Lemma rstrip_head s c : hd_error (rstrip s) = Some c -> hd_error s = Some c.
Proof.
  destruct (rstrip_decompose s) as [ws [_ Hs]].
  destruct (rstrip s) as [|a r]; [discriminate|].
  intros H. rewrite Hs. exact H.
Qed.

(** What [strip] leaves neither starts nor ends with whitespace. *)
Lemma strip_ends s c :
  hd_error (strip s) = Some c \/ hd_error (rev (strip s)) = Some c ->
  is_space c = false.
Proof.
  unfold strip. intros [H|H].
  - apply rstrip_head in H. now apply lstrip_head in H.
  - now apply rstrip_last in H.
Qed.

Lemma re_sub_unsafe_blanks ws :
  forallb is_space ws = true -> re_sub_unsafe ws = ws.
Proof.
  induction ws as [|c ws IH]; simpl; [reflexivity|].
  intros H. apply andb_prop in H as [Hc Hws]. rewrite IH by exact Hws.
  destruct (unsafe_char c) eqn:Hu; [|reflexivity].
  apply unsafe_char_not_space in Hu. congruence.
Qed.

Lemma re_sub_unsafe_all name :
  forallb unsafe_char name = true ->
  re_sub_unsafe name = repeat underscore (len name).
Proof.
  induction name as [|c name IH]; simpl; [reflexivity|].
  intros H. apply andb_prop in H as [Hc Hn]. now rewrite Hc, IH.
Qed.

Lemma rev_repeat {A} (x : A) n : rev (repeat x n) = repeat x n.
Proof.
  induction n as [|n IH]; [reflexivity|].
  simpl. rewrite IH. clear IH.
  induction n as [|n IH]; [reflexivity|]. simpl. now rewrite IH.
Qed.

Lemma strip_underscores n : strip (repeat underscore n) = repeat underscore n.
Proof.
  destruct n as [|n]; [reflexivity|].
  unfold strip, rstrip.
  assert (H : lstrip (repeat underscore (S n)) = repeat underscore (S n))
    by reflexivity.
  now rewrite H, rev_repeat, H, rev_repeat.
Qed.

Lemma re_sub_unsafe_nth name i c :
  nth_error name i = Some c ->
  nth_error (re_sub_unsafe name) i
  = Some (if unsafe_char c then underscore else c).
Proof.
  unfold re_sub_unsafe. intros H. rewrite nth_error_map, H. reflexivity.
Qed.

(** C10.  [sanitize_filename] replaces, position by position, each of the
    nine unsafe characters by an underscore, strips the result, and falls
    back to the placeholder when nothing is left.  So a label made of
    whitespace only (or empty) gives the placeholder, the file name never
    starts or ends with whitespace, and a non-empty label made of unsafe
    characters only gives as many underscores, not the placeholder. *)
Theorem sanitize_filename_spec (name : pystr) :
  (len (re_sub_unsafe name) = len name /\
   (forall i c, nth_error name i = Some c ->
      nth_error (re_sub_unsafe name) i
      = Some (if unsafe_char c then underscore else c)) /\
   sanitize_filename name
   = if is_empty (strip (re_sub_unsafe name)) then lit "unknown"
     else strip (re_sub_unsafe name)) /\
  (forallb is_space name = true -> sanitize_filename name = lit "unknown") /\
  (sanitize_filename name <> [] /\
   forall c, hd_error (sanitize_filename name) = Some c \/
             hd_error (rev (sanitize_filename name)) = Some c ->
             is_space c = false) /\
  (name <> [] -> forallb unsafe_char name = true ->
   sanitize_filename name = repeat underscore (len name) /\
   sanitize_filename name <> lit "unknown").
Proof.
  assert (Hdef : sanitize_filename name
                 = if is_empty (strip (re_sub_unsafe name)) then lit "unknown"
                   else strip (re_sub_unsafe name)).
  { unfold sanitize_filename, or_else, truthy.
    now destruct (strip (re_sub_unsafe name)). }
  split; [|split; [|split]].
  - split; [apply length_map|]. split; [apply re_sub_unsafe_nth | exact Hdef].
  - intros H. rewrite Hdef, re_sub_unsafe_blanks, strip_blanks by exact H.
    reflexivity.
  - rewrite Hdef. destruct (strip (re_sub_unsafe name)) as [|a r] eqn:E.
    + split; [discriminate|]. simpl. intros c [[= <-]|[= <-]]; reflexivity.
    + split; [discriminate|]. cbn [is_empty]. rewrite <- E. apply strip_ends.
  - intros Hne Hall. rewrite Hdef, re_sub_unsafe_all, strip_underscores by exact Hall.
    destruct name as [|c name]; [congruence|].
    split; [reflexivity | discriminate].
Qed.

Lemma sanitize_filename_spec_witness :
  sanitize_filename [32; 9; 160]%N = lit "unknown" /\
  (sanitize_filename (lit "?") = lit "_" /\
   sanitize_filename (lit "?") <> lit "unknown").
Proof.
  split.
  - apply (proj1 (proj2 (sanitize_filename_spec [32; 9; 160]%N))).
    reflexivity.
  - apply (proj2 (proj2 (proj2 (sanitize_filename_spec (lit "?"))))).
    + discriminate.
    + reflexivity.
Defined.

(* ================================================================== *)
(** * [get_latest_html]: the retry loop *)
(* ================================================================== *)

Section Fetcher.

Variable resp_text : Response -> pystr.
Variable w : World.

Lemma advance_0 st : advance st 0 [] = st.
Proof.
  destruct st. unfold advance. simpl. now rewrite Nat.add_0_r, app_nil_r.
Qed.

Lemma advance_advance st n evs n' evs' :
  advance (advance st n evs) n' evs' = advance st (n + n') (evs ++ evs').
Proof. unfold advance. simpl. now rewrite Nat.add_assoc, app_assoc. Qed.

(** A failed attempt that is not the last one: sleep and go on. *)
Lemma fetch_loop_failed attempt rest url force st msg :
  net w (tid st) url (requests_made st) = Failed msg ->
  attempt < RETRIES ->
  fetch_loop resp_text w (attempt :: rest) url force st
  = fetch_loop resp_text w rest url force
      (advance st 1 [EvGet url 30; EvSleep RETRY_DELAY]).
Proof.
  intros Hnet Hlt. apply Nat.ltb_lt in Hlt.
  cbn [fetch_loop]. unfold bind at 1, requests_get. rewrite Hnet, Hlt.
  unfold bind, sleep, log, advance. simpl.
  now rewrite <- app_assoc, Nat.add_1_r.
Qed.

(** [k] failed attempts in a row, none of them the last one. *)
Lemma fetch_loop_retry url force : forall k a m st,
  a + k <= RETRIES ->
  (forall j, j < k -> fails_at w st url j) ->
  fetch_loop resp_text w (seq a (k + m)) url force st
  = fetch_loop resp_text w (seq (a + k) m) url force
      (advance st k (retry_events url k)).
Proof.
  induction k as [|k IH]; intros a m st Ha Hfail.
  - now rewrite Nat.add_0_r, advance_0.
  - destruct (Hfail 0) as [msg Hmsg]; [lia|]. rewrite Nat.add_0_r in Hmsg.
    cbn [Nat.add seq].
    rewrite (fetch_loop_failed _ _ _ _ Hmsg) by lia.
    rewrite IH.
    + rewrite advance_advance. now rewrite <- Nat.add_succ_comm.
    + lia.
    + intros j Hj. destruct (Hfail (S j)) as [msg' Hmsg']; [lia|].
      exists msg'. simpl. rewrite <- Hmsg'. f_equal. lia.
Qed.

Lemma fetch_loop_answered attempt rest url force st resp :
  net w (tid st) url (requests_made st) = Answered resp ->
  fetch_loop resp_text w (attempt :: rest) url force st
  = (Ok (resp_text (set_encoding force resp)), advance st 1 [EvGet url 30]).
Proof.
  intros Hnet. cbn [fetch_loop]. unfold bind, requests_get. rewrite Hnet.
  unfold ret, advance. now rewrite Nat.add_1_r.
Qed.

Lemma fetch_loop_exhausted rest url force st msg :
  net w (tid st) url (requests_made st) = Failed msg ->
  fetch_loop resp_text w (RETRIES :: rest) url force st
  = (Raise (RuntimeError (lit "Failed to fetch " ++ url ++ lit ": " ++ msg)
              (RequestException msg)),
     advance st 1 [EvGet url 30]).
Proof.
  intros Hnet. cbn [fetch_loop]. unfold bind, requests_get. rewrite Hnet.
  rewrite Nat.ltb_irrefl. unfold raise, advance. now rewrite Nat.add_1_r.
Qed.

End Fetcher.

(* ================================================================== *)
(** * [parse_programas] *)
(* ================================================================== *)

Section IndexParser.

Variable upper : pystr -> pystr.

Lemma add_link_spec results a : add_link results a = results ++ link_of a.
Proof.
  unfold add_link, link_of, qualifies, resolve_url, href_of.
  destruct (contains (lit "titulados.asp") _); simpl;
    [|now rewrite app_nil_r].
  destruct (contains (lit "prog=") _); simpl; [|now rewrite app_nil_r].
  destruct (truthy (get_text_strip a)); simpl; [reflexivity|].
  now rewrite app_nil_r.
Qed.

Lemma fold_add_link anchors : forall results,
  fold_left add_link anchors results = results ++ flat_map link_of anchors.
Proof.
  induction anchors as [|a anchors IH]; intros results; simpl.
  - now rewrite app_nil_r.
  - now rewrite IH, add_link_spec, <- app_assoc.
Qed.

(** One turn of the loop over the tables, by the kind of the table. *)
Lemma programas_loop_step t rest results :
  programas_loop upper (t :: rest) results
  = if is_terminator upper t then Ok results
    else if is_target upper t then
      programas_loop upper rest (results ++ table_links t)
    else programas_loop upper rest results.
Proof.
  unfold is_terminator, is_target, opens, section_name_of, table_links.
  cbn [programas_loop].
  destruct (find [lit "tr"] t) as [first_row|]; [|reflexivity].
  destruct (find_all [lit "th"; lit "td"] first_row) as [|cell [|cell2 cells]];
    try reflexivity.
  cbn [len Nat.eqb negb getitem nth_error rbind].
  destruct (pystr_eqb (upper (get_text_strip cell)) (lit "DOCTORADO"));
    [reflexivity|].
  destruct (pystr_eqb (upper (get_text_strip cell)) (lit "LICENCIATURA"));
    cbn [negb]; [|reflexivity].
  now rewrite fold_add_link.
Qed.

(** The scan never raises. *)
Lemma programas_loop_total tables : forall results,
  exists links, programas_loop upper tables results = Ok links.
Proof.
  induction tables as [|t rest IH]; intros results.
  - now exists results.
  - rewrite programas_loop_step.
    destruct (is_terminator upper t); [now exists results|].
    destruct (is_target upper t); apply IH.
Qed.



(** Where a returned link comes from. *)
Lemma programas_loop_origin tables : forall results links l,
  programas_loop upper tables results = Ok links ->
  In l links ->
  In l results \/
  exists t, In t tables /\ is_target upper t = true /\ In l (table_links t).
Proof.
  induction tables as [|t rest IH]; intros results links l Hrun Hl.
  - left. cbn in Hrun. now injection Hrun as <-.
  - rewrite programas_loop_step in Hrun.
    destruct (is_terminator upper t).
    { left. now injection Hrun as <-. }
    destruct (is_target upper t) eqn:Ht.
    + destruct (IH _ _ _ Hrun Hl) as [Hacc | (t' & Hin & Htgt & Hlk)].
      * apply in_app_or in Hacc as [Hacc | Hnew]; [now left|].
        right. exists t. repeat split; [now left | exact Ht | exact Hnew].
      * right. exists t'. repeat split; [now right | exact Htgt | exact Hlk].
    + destruct (IH _ _ _ Hrun Hl) as [Hacc | (t' & Hin & Htgt & Hlk)];
        [now left|].
      right. exists t'. repeat split; [now right | exact Htgt | exact Hlk].
Qed.


(** C8 (as amended).  Every pair [parse_programas] returns comes from an
    anchor with an [href] below a table of the document: the label is the
    visible text of the anchor, and the address is the link target itself
    when it starts with [http], the origin of the site followed by the
    target when it starts with a slash, and the base address, a slash and
    the target otherwise. *)
Theorem parse_programas_resolves (soup : node) (links : list (pystr * pystr))
  (name url : pystr) :
  parse_programas_soup upper soup = Ok links ->
  In (name, url) links ->
  exists table a,
    In table (find_all [lit "table"] soup) /\
    In a (find_all_a_href table) /\
    name = get_text_strip a /\
    (startswith (href_of a) (lit "http") = true -> url = href_of a) /\
    (startswith (href_of a) (lit "http") = false ->
     startswith (href_of a) (lit "/") = true ->
     url = lit "https://escolar1.rhon.itam.mx" ++ href_of a) /\
    (startswith (href_of a) (lit "http") = false ->
     startswith (href_of a) (lit "/") = false ->
     url = BASE_URL ++ lit "/" ++ href_of a).
Proof.
  intros Hrun Hl. unfold parse_programas_soup in Hrun.
  destruct (programas_loop_origin _ _ _ Hrun Hl) as [[] | (t & Hin & _ & Hlk)].
  unfold table_links in Hlk. apply in_flat_map in Hlk as (a & Ha & Hlk).
  exists t, a. split; [exact Hin|]. split; [exact Ha|].
  unfold link_of in Hlk. destruct (qualifies a); [|contradiction].
  destruct Hlk as [[= <- <-] | []]. split; [reflexivity|].
  unfold resolve_url.
  repeat split; intros; repeat match goal with H : _ = _ |- _ => rewrite H end;
    reflexivity.
Qed.

End IndexParser.



Lemma parse_programas_resolves_witness :
  exists table a,
    In table (find_all [lit "table"] index_doc) /\
    In a (find_all_a_href table) /\
    lit "ECONOMIA" = get_text_strip a /\
    (startswith (href_of a) (lit "http") = true ->
     lit "https://escolar1.rhon.itam.mx/titulacion/titulados.asp?prog=2"
     = href_of a) /\
    (startswith (href_of a) (lit "http") = false ->
     startswith (href_of a) (lit "/") = true ->
     lit "https://escolar1.rhon.itam.mx/titulacion/titulados.asp?prog=2"
     = lit "https://escolar1.rhon.itam.mx" ++ href_of a) /\
    (startswith (href_of a) (lit "http") = false ->
     startswith (href_of a) (lit "/") = false ->
     lit "https://escolar1.rhon.itam.mx/titulacion/titulados.asp?prog=2"
     = BASE_URL ++ lit "/" ++ href_of a).
Proof.
  apply (@parse_programas_resolves ascii_upper index_doc _ _ _ eq_refl).
  right. left. reflexivity.
Defined.

(** C8, the claim as it stands fails: a link target that starts with two
    slashes does not pass through, the origin of the site is put in front
    of it like in front of any target that starts with a slash. *)
Lemma protocol_relative_is_rewritten :
  exists a,
    find_all_a_href slashes_index_doc = [a] /\
    href_of a = lit "//espejo.mx/titulados.asp?prog=1" /\
    parse_programas_soup ascii_upper slashes_index_doc
    = Ok [(lit "ACTUARIA",
           lit "https://escolar1.rhon.itam.mx//espejo.mx/titulados.asp?prog=1")] /\
    lit "https://escolar1.rhon.itam.mx//espejo.mx/titulados.asp?prog=1"
    <> href_of a.
Proof.
  eexists. repeat split; try reflexivity. discriminate.
Qed.

(* ================================================================== *)
(** * [parse_titulados_table] *)
(* ================================================================== *)

(** The loop over the rows never raises: both indexes are guarded by the
    test on the number of cells. *)
Lemma rows_loop_total trs : forall rows_data,
  exists rows, rows_loop trs rows_data = Ok rows.
Proof.
  induction trs as [|r trs IH]; intros rows_data; cbn [rows_loop].
  - now exists rows_data.
  - destruct (find_all [lit "td"; lit "th"] r) as [|c0 [|c1 cells]];
      cbn [len Nat.leb getitem nth_error rbind]; try apply IH.
    destruct (truthy (get_text_strip c0) || truthy (get_text_strip c1));
      apply IH.
Qed.

(** A table without header cells has no marker in its header text. *)
Lemma no_header_no_data_table t : header_cells_of t = [] -> is_data_table t = false.
Proof. unfold is_data_table, header_text_of. now intros ->. Qed.

(** One turn of the loop over the tables. *)
Lemma titulados_loop_step t rest rows_data :
  titulados_loop (t :: rest) rows_data
  = if is_data_table t then rows_loop (data_rows_of t) rows_data
    else titulados_loop rest rows_data.
Proof.
  cbn [titulados_loop].
  destruct (header_cells_of t) as [|h hs] eqn:E.
  - now rewrite (no_header_no_data_table _ E).
  - unfold is_data_table, header_text_of, has_name_markers, has_year_marker,
      data_rows_of.
    rewrite E. now destruct (_ && _ && _).
Qed.

Lemma titulados_loop_total tables : forall rows_data,
  exists rows, titulados_loop tables rows_data = Ok rows.
Proof.
  induction tables as [|t rest IH]; intros rows_data.
  - now exists rows_data.
  - rewrite titulados_loop_step.
    destruct (is_data_table t); [apply rows_loop_total | apply IH].
Qed.

(** A table that is not a data table may as well not be there. *)
Lemma titulados_loop_skip pre t post rows_data :
  is_data_table t = false ->
  titulados_loop (pre ++ t :: post) rows_data
  = titulados_loop (pre ++ post) rows_data.
Proof.
  intros Ht. induction pre as [|x pre IH]; cbn [app].
  - now rewrite titulados_loop_step, Ht.
  - rewrite !titulados_loop_step. now rewrite IH.
Qed.

(** The first data table decides. *)
Lemma titulados_loop_first pre t post rows_data :
  (forall x, In x pre -> is_data_table x = false) ->
  is_data_table t = true ->
  titulados_loop (pre ++ t :: post) rows_data
  = rows_loop (data_rows_of t) rows_data.
Proof.
  intros Hpre Ht. induction pre as [|x pre IH]; cbn [app].
  - now rewrite titulados_loop_step, Ht.
  - rewrite titulados_loop_step, (Hpre x) by now left.
    apply IH. intros y Hy. apply Hpre. now right.
Qed.

(** C4.  A table is taken as the data table exactly when the joined text
    of its header cells contains the two name markers and the year
    marker; a table without the year marker is passed over as if it were
    not in the document; and when no table before [t] is a data table and
    [t] is one, the rows returned are those read from [t], whatever
    tables follow. *)
Theorem parse_titulados_first_match (soup : node) (pre : list node)
  (t : node) (post : list node) :
  find_all [lit "table"] soup = pre ++ t :: post ->
  (forall rest rows_data,
      titulados_loop (t :: rest) rows_data
      = if has_name_markers (header_text_of t)
           && has_year_marker (header_text_of t)
        then rows_loop (data_rows_of t) rows_data
        else titulados_loop rest rows_data) /\
  (has_year_marker (header_text_of t) = false ->
   parse_titulados_soup soup = titulados_loop (pre ++ post) []) /\
  ((forall x, In x pre -> is_data_table x = false) ->
   is_data_table t = true ->
   parse_titulados_soup soup = rows_loop (data_rows_of t) []).
Proof.
  intros Htables. unfold parse_titulados_soup. rewrite Htables.
  split; [exact (titulados_loop_step t)|]. split.
  - intros Hyear. apply titulados_loop_skip.
    unfold is_data_table. rewrite Hyear. apply andb_false_r.
  - apply titulados_loop_first.
Qed.

Lemma parse_titulados_first_match_witness :
  parse_titulados_soup listing_doc
  = titulados_loop (listing_doc_first :: listing_doc_post) [] /\
  parse_titulados_soup listing_doc
  = Ok [(lit "GARCIA LOPEZ MARIA JOSE", lit "2020"); (lit "PEREZ", [])].
Proof.
  split.
  - apply (proj1 (proj2 (@parse_titulados_first_match listing_doc []
                           (hd (Text []) listing_doc_pre)
                           (listing_doc_first :: listing_doc_post) eq_refl))).
    reflexivity.
  - apply (proj2 (proj2 (@parse_titulados_first_match listing_doc
                           listing_doc_pre listing_doc_first listing_doc_post
                           eq_refl))).
    + intros x [<- | []]. reflexivity.
    + reflexivity.
Defined.


(* ================================================================== *)
(** * [scrape_career]: the retry under the legacy encoding *)
(* ================================================================== *)

Section Worker.

Variable html_parser : pystr -> node.
Variable resp_text : Response -> pystr.
Variable w : World.


(** One line per row, none lost: [split_name] does not raise. *)
Lemma csv_lines_total rows :
  exists lines, csv_lines rows = Ok lines /\ len lines = len rows.
Proof.
  induction rows as [|[nombre anio] rows (lines & Hlines & Hlen)].
  - now exists [].
  - destruct (split_name_total nombre) as [parts Hparts].
    eexists. cbn [csv_lines]. rewrite Hparts, Hlines. cbn [rbind].
    split; [reflexivity|]. cbn [len]. now rewrite Hlen.
Qed.

(** Writing the file when the disk lets the worker open it. *)
Lemma write_csv_ok out_path rows st :
  disk w out_path = None ->
  exists lines,
    csv_lines rows = Ok lines /\
    write_csv w out_path rows st
    = (Ok tt, advance st 0 [EvWriteCsv out_path (fieldnames :: lines)]).
Proof.
  intros Hdisk. destruct (csv_lines_total rows) as (lines & Hlines & _).
  exists lines. split; [exact Hlines|].
  unfold write_csv. rewrite Hdisk. unfold bind, lift, log, advance.
  rewrite Hlines. now rewrite Nat.add_0_r.
Qed.

(** The end of [scrape_career], from the rows it settled on. *)
Lemma scrape_career_finish career_name url output_dir st html1 st1 rows1 rows st' :
  get_latest_html resp_text w url None st = (Ok html1, st1) ->
  parse_titulados_table html_parser html1 = Ok rows1 ->
  (if is_nil rows1 && contains (lit "titulados.asp") url then
     html <- get_latest_html resp_text w url (Some (lit "iso-8859-1")) ;;
     lift (parse_titulados_table html_parser html)
   else ret rows1) st1 = (Ok rows, st') ->
  disk w (csv_path output_dir (sanitize_filename career_name)) = None ->
  exists lines,
    csv_lines rows = Ok lines /\
    scrape_career html_parser resp_text w career_name url output_dir st
    = (Ok (len rows),
       advance st' 0
         [EvWriteCsv (csv_path output_dir (sanitize_filename career_name))
            (fieldnames :: lines)]).
Proof.
  intros Hfetch Hparse Hrows Hdisk.
  destruct (@write_csv_ok _ rows st' Hdisk) as (lines & Hlines & Hwrite).
  exists lines. split; [exact Hlines|].
  unfold scrape_career. unfold bind at 1. rewrite Hfetch.
  unfold bind at 1. unfold lift at 1. rewrite Hparse.
  unfold bind at 1. rewrite Hrows.
  unfold bind at 1. rewrite Hwrite. reflexivity.
Qed.

(** C2.  After a first fetch and parse of the page of a career:
    with one row or more, the worker writes the file and returns the
    count, having made no further request; with no row and an address of
    the listing kind, what follows is one call of [get_latest_html] on the
    same address with ISO-8859-1 forced, started where the first call
    ended, and a second parse: if that call raises, the worker raises the
    same; otherwise the worker writes the rows of the second parse and
    returns their count, which is 0, and no error, when there is still no
    row.  With no row and an address of another kind nothing is fetched
    again.  Where a file is written, the disk is taken to let the worker
    open it. *)
Theorem scrape_career_encoding_retry (career_name url output_dir : pystr)
  (st st1 : Thread) (html1 : pystr) (rows1 : list (pystr * pystr)) :
  get_latest_html resp_text w url None st = (Ok html1, st1) ->
  parse_titulados_table html_parser html1 = Ok rows1 ->
  let out_path := csv_path output_dir (sanitize_filename career_name) in
  (rows1 <> [] -> disk w out_path = None ->
   exists lines,
     csv_lines rows1 = Ok lines /\
     scrape_career html_parser resp_text w career_name url output_dir st
     = (Ok (len rows1),
        advance st1 0 [EvWriteCsv out_path (fieldnames :: lines)])) /\
  (rows1 = [] -> contains (lit "titulados.asp") url = true ->
   forall r2 st2,
     get_latest_html resp_text w url (Some (lit "iso-8859-1")) st1 = (r2, st2) ->
     (forall e, r2 = Raise e ->
        scrape_career html_parser resp_text w career_name url output_dir st
        = (Raise e, st2)) /\
     (forall html2 rows2,
        r2 = Ok html2 ->
        parse_titulados_table html_parser html2 = Ok rows2 ->
        disk w out_path = None ->
        exists lines,
          csv_lines rows2 = Ok lines /\
          scrape_career html_parser resp_text w career_name url output_dir st
          = (Ok (len rows2),
             advance st2 0 [EvWriteCsv out_path (fieldnames :: lines)])) /\
     (forall html2,
        r2 = Ok html2 ->
        parse_titulados_table html_parser html2 = Ok [] ->
        disk w out_path = None ->
        scrape_career html_parser resp_text w career_name url output_dir st
        = (Ok 0, advance st2 0 [EvWriteCsv out_path [fieldnames]]))) /\
  (rows1 = [] -> contains (lit "titulados.asp") url = false ->
   disk w out_path = None ->
   scrape_career html_parser resp_text w career_name url output_dir st
   = (Ok 0, advance st1 0 [EvWriteCsv out_path [fieldnames]])).
Proof.
  intros Hfetch Hparse out_path. split; [|split].
  - intros Hrows Hdisk. eapply scrape_career_finish; eauto.
    destruct rows1; [congruence | reflexivity].
  - intros -> Hkind r2 st2 Hfetch2.
    assert (Hsecond : forall html2 rows2,
               r2 = Ok html2 ->
               parse_titulados_table html_parser html2 = Ok rows2 ->
               disk w out_path = None ->
               exists lines,
                 csv_lines rows2 = Ok lines /\
                 scrape_career html_parser resp_text w career_name url output_dir st
                 = (Ok (len rows2),
                    advance st2 0 [EvWriteCsv out_path (fieldnames :: lines)])).
    { intros html2 rows2 -> Hparse2 Hdisk.
      eapply scrape_career_finish; eauto.
      rewrite Hkind. cbn [is_nil andb]. unfold bind. rewrite Hfetch2.
      unfold lift. now rewrite Hparse2. }
    split; [|split].
    + intros e ->. unfold scrape_career. unfold bind at 1. rewrite Hfetch.
      unfold bind at 1. unfold lift at 1. rewrite Hparse.
      unfold bind at 1. rewrite Hkind. cbn [is_nil andb].
      unfold bind at 1. now rewrite Hfetch2.
    + exact Hsecond.
    + intros html2 Hr2 Hparse2 Hdisk.
      destruct (Hsecond html2 [] Hr2 Hparse2 Hdisk) as (lines & Hlines & Hrun).
      cbn in Hlines. injection Hlines as <-. exact Hrun.
  - intros -> Hkind Hdisk.
    destruct (@scrape_career_finish career_name url output_dir st html1 st1
                [] [] st1 Hfetch Hparse) as (lines & Hlines & Hrun).
    + now rewrite Hkind.
    + exact Hdisk.
    + cbn in Hlines. injection Hlines as <-. exact Hrun.
Qed.

End Worker.

Lemma scrape_career_encoding_retry_witness :
  (exists lines,
      csv_lines [(lit "GARCIA LOPEZ MARIA JOSE", lit "2020"); (lit "PEREZ", [])]
      = Ok lines /\
      scrape_career sample_parser sample_text listing_world
        (lit "ACTUARIA") listing_url OUTPUT_DIR (new_thread 1)
      = (Ok 2,
         advance (mkThread 1 1 [EvGet listing_url 30]) 0
           [EvWriteCsv (lit "output/ACTUARIA.csv") (fieldnames :: lines)])) /\
  (exists lines,
      csv_lines [(lit "GARCIA LOPEZ MARIA JOSE", lit "2020"); (lit "PEREZ", [])]
      = Ok lines /\
      scrape_career sample_parser sample_text undeclared_world
        (lit "ACTUARIA") listing_url OUTPUT_DIR (new_thread 1)
      = (Ok 2,
         advance (mkThread 1 2 [EvGet listing_url 30; EvGet listing_url 30]) 0
           [EvWriteCsv (lit "output/ACTUARIA.csv") (fieldnames :: lines)])) /\
  scrape_career sample_parser sample_text empty_world
    (lit "ACTUARIA") listing_url OUTPUT_DIR (new_thread 1)
  = (Ok 0,
     mkThread 1 2 [EvGet listing_url 30; EvGet listing_url 30;
                   EvWriteCsv (lit "output/ACTUARIA.csv") [fieldnames]]) /\
  scrape_career sample_parser sample_text empty_world
    (lit "ACTUARIA") PROGRAMAS_URL OUTPUT_DIR (new_thread 1)
  = (Ok 0,
     mkThread 1 1 [EvGet PROGRAMAS_URL 30;
                   EvWriteCsv (lit "output/ACTUARIA.csv") [fieldnames]]).
Proof.
  split; [|split; [|split]].
  - apply (proj1 (@scrape_career_encoding_retry sample_parser sample_text
                    listing_world (lit "ACTUARIA") listing_url OUTPUT_DIR
                    (new_thread 1) _ _ _ eq_refl eq_refl)).
    + discriminate.
    + reflexivity.
  - apply (proj1 (proj2 (proj1 (proj2 (@scrape_career_encoding_retry
                    sample_parser sample_text undeclared_world (lit "ACTUARIA")
                    listing_url OUTPUT_DIR (new_thread 1) _ _ _
                    eq_refl eq_refl))
                    eq_refl eq_refl _ _ eq_refl)) (lit "LISTING"));
      reflexivity.
  - apply (proj2 (proj2 (proj1 (proj2 (@scrape_career_encoding_retry
                    sample_parser sample_text empty_world (lit "ACTUARIA")
                    listing_url OUTPUT_DIR (new_thread 1) _ _ _
                    eq_refl eq_refl))
                    eq_refl eq_refl _ _ eq_refl)) (lit "EMPTY"));
      reflexivity.
  - apply (proj2 (proj2 (@scrape_career_encoding_retry
                    sample_parser sample_text empty_world (lit "ACTUARIA")
                    PROGRAMAS_URL OUTPUT_DIR (new_thread 1) _ _ _
                    eq_refl eq_refl)));
      reflexivity.
Defined.

(* ================================================================== *)
(** * [main]: discovery and the collection of the outcomes *)
(* ================================================================== *)

Lemma insert_at_perm {A} k (x : A) xs : Permutation (insert_at k x xs) (x :: xs).
Proof.
  unfold insert_at. rewrite <- (firstn_skipn k xs) at 3.
  symmetry. apply Permutation_middle.
Qed.

(** The futures complete in some order, each of them once. *)
Lemma as_completed_perm {A} (futures : list A) : forall choices,
  Permutation (as_completed choices futures) futures.
Proof.
  induction futures as [|f rest IH]; intros choices; cbn [as_completed].
  - constructor.
  - rewrite insert_at_perm. constructor. apply IH.
Qed.

(** And every order is the order of some schedule. *)
Lemma as_completed_any_order {A} (futures : list A) : forall order,
  Permutation order futures ->
  exists choices, as_completed choices futures = order.
Proof.
  induction futures as [|f rest IH]; intros order Hperm.
  - apply Permutation_sym, Permutation_nil in Hperm. now exists [].
  - assert (Hin : In f order).
    { eapply Permutation_in; [symmetry; exact Hperm | now left]. }
    apply in_split in Hin as (l1 & l2 & ->).
    apply Permutation_sym, Permutation_cons_app_inv, Permutation_sym in Hperm.
    destruct (IH _ Hperm) as [choices Hchoices].
    exists (len l1 :: choices). cbn [as_completed hd tl].
    rewrite Hchoices. unfold insert_at.
    rewrite firstn_app, firstn_all, Nat.sub_diag, skipn_app, skipn_all,
      Nat.sub_diag.
    cbn. now rewrite app_nil_r.
Qed.



Lemma list_sum_ones {A} (xs : list A) : list_sum (map (fun _ => 1) xs) = len xs.
Proof.
  unfold list_sum. induction xs as [|x xs IH]; [reflexivity|].
  cbn. now rewrite IH.
Qed.





(** The collection loop reports every future it is given and fails on
    none. *)
Lemma collect_loop_spec completed : forall results st,
  collect_loop completed results st
  = (Ok (results ++ map entry_of completed),
     advance st 0 (map report_line completed)).
Proof.
  induction completed as [|f rest IH]; intros results st.
  - cbn. now rewrite app_nil_r, advance_0.
  - cbn [collect_loop map]. unfold entry_of at 1, report_line at 1.
    destruct (fut_outcome f) as [count | e];
      unfold bind, log; rewrite IH; unfold advance; cbn;
      now rewrite <- !app_assoc.
Qed.

Section Coordinator.

Variable upper : pystr -> pystr.
Variable html_parser : pystr -> node.
Variable resp_text : Response -> pystr.
Variable w : World.



(** What a call of [get_latest_html] adds to the trace: requests to its
    own address and sleeps. *)
Lemma fetch_loop_events url force attempts : forall st r st',
  fetch_loop resp_text w attempts url force st = (r, st') ->
  exists n evs,
    st' = advance st n evs /\
    Forall (fun ev => ev = EvGet url 30 \/ ev = EvSleep RETRY_DELAY) evs.
Proof.
  induction attempts as [|a attempts IH]; intros st r st' Hrun.
  - cbn in Hrun. injection Hrun as <- <-. exists 0, []. now rewrite advance_0.
  - cbn [fetch_loop] in Hrun. unfold bind at 1, requests_get in Hrun.
    destruct (net w (tid st) url (requests_made st)) as [msg | resp].
    + destruct (a <? RETRIES).
      * unfold bind, sleep, log in Hrun. cbn in Hrun.
        apply IH in Hrun as (n & evs & -> & Hevs).
        exists (1 + n), ([EvGet url 30; EvSleep RETRY_DELAY] ++ evs). split.
        -- unfold advance. cbn. f_equal; [lia|].
           now rewrite <- !app_assoc.
        -- cbn [app]. constructor; [now left|].
           constructor; [now right | exact Hevs].
      * cbn in Hrun. injection Hrun as <- <-.
        exists 1, [EvGet url 30]. split.
        -- unfold advance. cbn. f_equal. lia.
        -- repeat constructor; auto.
    + cbn in Hrun. injection Hrun as <- <-.
      exists 1, [EvGet url 30]. split.
      * unfold advance. cbn. f_equal. lia.
      * repeat constructor; auto.
Qed.

(** [main] up to the test on the number of careers. *)
Lemma main_after_index html st1 careers :
  get_latest_html resp_text w PROGRAMAS_URL None main_started = (Ok html, st1) ->
  parse_programas upper html_parser html = Ok careers ->
  main upper html_parser resp_text w
  = (if is_nil careers then
       log (EvPrint MsgNoLinks) ;;; ret []
     else
       log (EvPrint (MsgFound (len careers))) ;;;
       let futures := submit_all html_parser resp_text w OUTPUT_DIR 0 careers in
       results <- collect_loop (as_completed (sched w) futures) [] ;;
       let ok := count_ok results in
       let total_rows := sum_rows results in
       log (EvPrint (MsgDone ok (len careers) OUTPUT_DIR total_rows)) ;;;
       (if existsb e_truthy (filter e_truthy results) then
          log (EvPrint MsgSomeFailed)
        else ret tt) ;;;
       ret futures) st1.
Proof.
  intros Hfetch Hparse. unfold main, main_body.
  unfold bind at 1. unfold log at 1. unfold bind at 1. unfold log at 1.
  change (mkThread _ _ _) with main_started.
  unfold bind at 1. rewrite Hfetch.
  unfold bind at 1. unfold lift at 1. rewrite Hparse.
  reflexivity.
Qed.

(** C7 (as amended).  When the index page is fetched and no career is
    found in it, [main] prints that no link was found and returns, without
    raising: no future is submitted, so no worker runs, and the main
    thread itself has only created the output directory, requested the
    index page (sleeping between attempts) and printed its two lines; it
    requested no other address and wrote no file. *)
Theorem main_no_categories (html : pystr) (st1 : Thread) :
  get_latest_html resp_text w PROGRAMAS_URL None main_started = (Ok html, st1) ->
  parse_programas upper html_parser html = Ok [] ->
  main upper html_parser resp_text w
  = (Ok [], advance st1 0 [EvPrint MsgNoLinks]) /\
  Forall (fun ev => ev = EvMkdir OUTPUT_DIR \/ ev = EvPrint MsgFetching \/
                    ev = EvGet PROGRAMAS_URL 30 \/ ev = EvSleep RETRY_DELAY \/
                    ev = EvPrint MsgNoLinks)
         (trace (snd (main upper html_parser resp_text w))).
Proof.
  intros Hfetch Hparse. rewrite (main_after_index Hfetch Hparse).
  cbn [is_nil]. unfold bind, log, ret. split.
  - unfold advance. now rewrite Nat.add_0_r.
  - apply fetch_loop_events in Hfetch as (n & evs & -> & Hevs).
    cbn [snd trace advance main_started].
    apply Forall_app; split; [apply Forall_app; split|].
    + constructor; [auto 7|]. constructor; [auto 7 | constructor].
    + eapply Forall_impl; [|exact Hevs]. intros ev [-> | ->]; auto 7.
    + constructor; [auto 7 | constructor].
Qed.


End Coordinator.

Lemma main_no_categories_witness :
  main ascii_upper sample_parser sample_text empty_world
  = (Ok [], advance main_fetched 0 [EvPrint MsgNoLinks]) /\
  Forall (fun ev => ev = EvMkdir OUTPUT_DIR \/ ev = EvPrint MsgFetching \/
                    ev = EvGet PROGRAMAS_URL 30 \/ ev = EvSleep RETRY_DELAY \/
                    ev = EvPrint MsgNoLinks)
         (trace (snd (main ascii_upper sample_parser sample_text empty_world))).
Proof.
  apply (@main_no_categories ascii_upper sample_parser sample_text empty_world
           (lit "EMPTY") main_fetched); reflexivity.
Defined.

(** C7, the claim as it stands fails: in [empty_world] the index page is
    fetched, no career is found in it, and [main] returns normally; no
    exception leaves it. *)
Lemma no_categories_returns_normally :
  get_latest_html sample_text empty_world PROGRAMAS_URL None main_started
  = (Ok (lit "EMPTY"), main_fetched) /\
  parse_programas ascii_upper sample_parser (lit "EMPTY") = Ok [] /\
  main ascii_upper sample_parser sample_text empty_world
  = (Ok [],
     mkThread 0 1 [EvMkdir OUTPUT_DIR; EvPrint MsgFetching;
                   EvGet PROGRAMAS_URL 30; EvPrint MsgNoLinks]) /\
  forall e, fst (main ascii_upper sample_parser sample_text empty_world) <> Raise e.
Proof.
  repeat split; try reflexivity. intros e. discriminate.
Qed.


(* ================================================================== *)
(** * More on [sanitize_filename] and the file names *)
(* ================================================================== *)

Lemma lstrip_Forall (P : pychar -> Prop) s : Forall P s -> Forall P (lstrip s).
Proof.
  intros H. destruct (lstrip_decompose s) as [ws [_ Hs]].
  rewrite Hs in H. now apply Forall_app in H.
Qed.

Lemma rstrip_Forall (P : pychar -> Prop) s : Forall P s -> Forall P (rstrip s).
Proof.
  intros H. destruct (rstrip_decompose s) as [ws [_ Hs]].
  rewrite Hs in H. now apply Forall_app in H.
Qed.

Lemma strip_Forall (P : pychar -> Prop) s : Forall P s -> Forall P (strip s).
Proof. intros H. now apply rstrip_Forall, lstrip_Forall. Qed.

Lemma re_sub_unsafe_safe name :
  Forall (fun c => unsafe_char c = false) (re_sub_unsafe name).
Proof.
  induction name as [|c name IH]; [constructor|].
  cbn [re_sub_unsafe map]. constructor; [|exact IH].
  destruct (unsafe_char c) eqn:Hc; [reflexivity | exact Hc].
Qed.

Lemma re_sub_unsafe_id s :
  Forall (fun c => unsafe_char c = false) s -> re_sub_unsafe s = s.
Proof.
  induction 1 as [|c s Hc _ IH]; [reflexivity|].
  cbn [re_sub_unsafe map]. rewrite Hc. f_equal. exact IH.
Qed.

Lemma strip_trimmed s : trimmed (strip s).
Proof. intros c. apply strip_ends. Qed.

Lemma lstrip_id s :
  (forall c, hd_error s = Some c -> is_space c = false) -> lstrip s = s.
Proof.
  destruct s as [|c s]; [reflexivity|]. intros H. cbn [lstrip].
  now rewrite (H c eq_refl).
Qed.

Lemma strip_id s : trimmed s -> strip s = s.
Proof.
  intros H. unfold strip. rewrite lstrip_id by (intros c Hc; apply H; now left).
  unfold rstrip. rewrite lstrip_id by (intros c Hc; apply H; now right).
  apply rev_involutive.
Qed.

Lemma or_else_nonempty (s d : pystr) : s <> [] -> or_else s d = s.
Proof. destruct s; [congruence | reflexivity]. Qed.

(** X1.  Whatever the label, the file name [sanitize_filename] gives
    holds none of the nine unsafe characters. *)
Theorem sanitize_filename_safe (name : pystr) :
  Forall (fun c => unsafe_char c = false) (sanitize_filename name).
Proof.
  unfold sanitize_filename, or_else, truthy.
  destruct (strip (re_sub_unsafe name)) as [|a r] eqn:E; cbn [is_empty negb].
  - repeat constructor.
  - rewrite <- E. apply strip_Forall, re_sub_unsafe_safe.
Qed.

(** A sanitized name is left alone by the replacement and by [strip]. *)
Lemma sanitize_filename_fixed name :
  sanitize_filename (sanitize_filename name) = sanitize_filename name.
Proof.
  destruct (strip (re_sub_unsafe name)) as [|a r] eqn:E.
  - assert (H : sanitize_filename name = lit "unknown").
    { unfold sanitize_filename. now rewrite E. }
    now rewrite H.
  - assert (H : sanitize_filename name = strip (re_sub_unsafe name)).
    { unfold sanitize_filename. now rewrite E. }
    rewrite H. unfold sanitize_filename.
    rewrite re_sub_unsafe_id by apply strip_Forall, re_sub_unsafe_safe.
    rewrite strip_id by apply strip_trimmed.
    apply or_else_nonempty. rewrite E. discriminate.
Qed.

(** X2.  Sanitizing a sanitized name changes nothing. *)
Theorem sanitize_filename_idempotent (name : pystr) :
  sanitize_filename (sanitize_filename name) = sanitize_filename name.
Proof. apply sanitize_filename_fixed. Qed.






(* ================================================================== *)
(** * More on [split_name] *)
(* ================================================================== *)

(** X3.  In the record [split_name] returns, each of the two surnames and
    the first name is empty or one whitespace token, and the second name
    is empty or tokens joined by single blanks.  The fields fill up in a
    fixed order: a record with a second name has a maternal surname, one
    with a maternal surname has a first name, one with a first name has a
    paternal surname. *)
Theorem split_name_fields (full_name : pystr) :
  exists parts,
    split_name full_name = Ok parts /\
    (apellido_paterno parts = [] \/ is_token (apellido_paterno parts)) /\
    (apellido_materno parts = [] \/ is_token (apellido_materno parts)) /\
    (primer_nombre parts = [] \/ is_token (primer_nombre parts)) /\
    (segundo_nombre parts = [] \/
     exists t ts, Forall is_token (t :: ts) /\
                  segundo_nombre parts = join (lit " ") (t :: ts)) /\
    (segundo_nombre parts = [] \/ apellido_materno parts <> []) /\
    (apellido_materno parts = [] \/ primer_nombre parts <> []) /\
    (primer_nombre parts = [] \/ apellido_paterno parts <> []).
Proof.
  eexists. split; [apply split_name_by_tokens|].
  pose proof (split_tokens full_name) as Htok.
  destruct (split full_name) as [|t1 [|t2 [|t3 [|t4 more]]]];
    inv_tokens Htok;
    cbn [apellido_paterno apellido_materno primer_nombre segundo_nombre];
    repeat match goal with H : is_token _ |- _ =>
             let Hne := fresh "Hne" in
             pose proof (proj1 H) as Hne; revert H
           end; intros; repeat split; auto.
  right. exists t4, more. split; [now constructor | reflexivity].
Qed.

(* ================================================================== *)
(** * More on [get_latest_html] *)
(* ================================================================== *)

Section FetcherOutcomes.

Variable resp_text : Response -> pystr.
Variable w : World.

(** The call after [k] failed attempts and an answer. *)
Lemma get_latest_html_answered url force st k resp :
  k <= RETRIES ->
  (forall j, j < k -> fails_at w st url j) ->
  net w (tid st) url (requests_made st + k) = Answered resp ->
  get_latest_html resp_text w url force st
  = (Ok (resp_text (set_encoding force resp)),
     advance st (k + 1) (retry_events url k ++ [EvGet url 30])).
Proof.
  intros Hk Hfail Hresp. unfold get_latest_html.
  replace (RETRIES + 1) with (k + S (RETRIES - k)) by lia.
  rewrite fetch_loop_retry by (assumption || lia).
  cbn [seq]. erewrite fetch_loop_answered by exact Hresp.
  now rewrite advance_advance.
Qed.

(** The call when every attempt fails. *)
Lemma get_latest_html_exhausted url force st msg :
  (forall j, j < RETRIES -> fails_at w st url j) ->
  net w (tid st) url (requests_made st + RETRIES) = Failed msg ->
  get_latest_html resp_text w url force st
  = (Raise (RuntimeError (lit "Failed to fetch " ++ url ++ lit ": " ++ msg)
              (RequestException msg)),
     advance st (RETRIES + 1) (retry_events url RETRIES ++ [EvGet url 30])).
Proof.
  intros Hfail Hmsg. unfold get_latest_html.
  rewrite fetch_loop_retry by (assumption || lia).
  cbn [seq Nat.add]. erewrite fetch_loop_exhausted by exact Hmsg.
  now rewrite advance_advance.
Qed.

(** After the call the response has an encoding. *)
Lemma set_encoding_some force resp :
  exists enc, encoding (set_encoding force resp) = Some enc.
Proof.
  unfold set_encoding. destruct force as [f|]; cbn [opt_truthy].
  - destruct (truthy f); cbn [encoding]; [now exists f|].
    destruct (encoding resp) as [enc|] eqn:E; [now exists enc|].
    cbn [encoding]. destruct (apparent_encoding resp) as [a|]; cbn [opt_truthy].
    + destruct (truthy a); eauto.
    + eauto.
  - destruct (encoding resp) as [enc|] eqn:E; [now exists enc|].
    cbn [encoding]. destruct (apparent_encoding resp) as [a|]; cbn [opt_truthy].
    + destruct (truthy a); eauto.
    + eauto.
Qed.

(** The two ways a call can end. *)
Lemma get_latest_html_cases (url : pystr) (force : option pystr)
  (st : Thread) :
  exists k,
    k <= RETRIES /\
    (forall j, j < k -> fails_at w st url j) /\
    ((exists resp enc,
         net w (tid st) url (requests_made st + k) = Answered resp /\
         encoding (set_encoding force resp) = Some enc /\
         content (set_encoding force resp) = content resp /\
         get_latest_html resp_text w url force st
         = (Ok (resp_text (set_encoding force resp)),
            advance st (k + 1) (retry_events url k ++ [EvGet url 30]))) \/
     (k = RETRIES /\
      exists msg,
        net w (tid st) url (requests_made st + k) = Failed msg /\
        get_latest_html resp_text w url force st
        = (Raise (RuntimeError
                    (lit "Failed to fetch " ++ url ++ lit ": " ++ msg)
                    (RequestException msg)),
           advance st (k + 1) (retry_events url k ++ [EvGet url 30])))).
Proof.
  assert (Hcontent : forall resp,
             content (set_encoding force resp) = content resp).
  { intros resp. unfold set_encoding.
    destruct (opt_truthy force); [reflexivity|].
    now destruct (encoding resp). }
  assert (Hans : forall k resp,
             k <= RETRIES ->
             (forall j, j < k -> fails_at w st url j) ->
             net w (tid st) url (requests_made st + k) = Answered resp ->
             exists k, k <= RETRIES /\
               (forall j, j < k -> fails_at w st url j) /\
               ((exists resp enc,
                    net w (tid st) url (requests_made st + k) = Answered resp /\
                    encoding (set_encoding force resp) = Some enc /\
                    content (set_encoding force resp) = content resp /\
                    get_latest_html resp_text w url force st
                    = (Ok (resp_text (set_encoding force resp)),
                       advance st (k + 1) (retry_events url k ++ [EvGet url 30]))) \/
                (k = RETRIES /\
                 exists msg,
                   net w (tid st) url (requests_made st + k) = Failed msg /\
                   get_latest_html resp_text w url force st
                   = (Raise (RuntimeError
                               (lit "Failed to fetch " ++ url ++ lit ": " ++ msg)
                               (RequestException msg)),
                      advance st (k + 1)
                        (retry_events url k ++ [EvGet url 30]))))).
  { intros k resp Hk Hfail Hresp. exists k. split; [exact Hk|].
    split; [exact Hfail|]. left.
    destruct (set_encoding_some force resp) as [enc Henc].
    exists resp, enc. repeat split; auto.
    now apply get_latest_html_answered. }
  destruct (net w (tid st) url (requests_made st + 0)) as [m0|r0] eqn:E0.
  2:{ apply (Hans 0 r0); [unfold RETRIES; lia | intros j Hj; lia | exact E0]. }
  destruct (net w (tid st) url (requests_made st + 1)) as [m1|r1] eqn:E1.
  2:{ apply (Hans 1 r1); [unfold RETRIES; lia | | exact E1].
      intros j Hj. assert (j = 0) as -> by lia. now exists m0. }
  assert (Hfail : forall j, j < 2 -> fails_at w st url j).
  { intros j Hj. destruct j as [|[|j]]; [now exists m0 | now exists m1 | lia]. }
  destruct (net w (tid st) url (requests_made st + 2)) as [m2|r2] eqn:E2.
  2:{ apply (Hans 2 r2); [unfold RETRIES; lia | exact Hfail | exact E2]. }
  exists 2. split; [unfold RETRIES; lia|]. split; [exact Hfail|].
  right. split; [reflexivity|]. exists m2. split; [exact E2|].
  now apply get_latest_html_exhausted.
Qed.

(** X4.  Every call of [get_latest_html] ends in one of two ways, after
    [k] failed attempts with [k] at most [RETRIES]: attempt [k] is
    answered and the call returns the body of that response, decoded
    under an encoding that is set, having made [k + 1] requests; or all
    [RETRIES + 1] attempts failed and it raises the [RuntimeError] of the
    last failure.  It makes at least one request and at most three, and
    never falls out of the loop with the empty string. *)
Theorem get_latest_html_outcomes (url : pystr) (force : option pystr)
  (st : Thread) :
  exists k,
    k <= RETRIES /\
    (forall j, j < k -> fails_at w st url j) /\
    ((exists resp enc,
         net w (tid st) url (requests_made st + k) = Answered resp /\
         encoding (set_encoding force resp) = Some enc /\
         content (set_encoding force resp) = content resp /\
         get_latest_html resp_text w url force st
         = (Ok (resp_text (set_encoding force resp)),
            advance st (k + 1) (retry_events url k ++ [EvGet url 30]))) \/
     (k = RETRIES /\
      exists msg,
        net w (tid st) url (requests_made st + k) = Failed msg /\
        get_latest_html resp_text w url force st
        = (Raise (RuntimeError
                    (lit "Failed to fetch " ++ url ++ lit ": " ++ msg)
                    (RequestException msg)),
           advance st (k + 1) (retry_events url k ++ [EvGet url 30])))).
Proof. apply get_latest_html_cases. Qed.



End FetcherOutcomes.

Lemma refused_fails x : refused x <-> exists msg, attempt_of x = Failed msg.
Proof.
  destruct x as [msg | status text resp]; cbn [refused attempt_of].
  - split; [intros _; now exists msg | trivial].
  - destruct ((400 <=? status) && (status <? 600)) eqn:E.
    + apply andb_prop in E as [E1 E2].
      apply Nat.leb_le in E1. apply Nat.ltb_lt in E2.
      split; [intros _; now exists text | intros _; lia].
    + split; [|intros [msg Hmsg]; discriminate].
      intros [H1 H2]. apply Nat.leb_le in H1. apply Nat.ltb_lt in H2.
      rewrite H1, H2 in E. discriminate.
Qed.

Section FetcherByStatus.

Variable resp_text : Response -> pystr.
Variable xnet : nat -> pystr -> nat -> exchange.
Variable disk : pystr -> option pystr.
Variable sched : list nat.

(** C6 (as amended).  An attempt of [get_latest_html] fails when
    [requests.get] or [raise_for_status] raises a [RequestException]:
    there is no response, or its status is from 400 to 599.  A response
    with any other status, the 3xx ones included, is an answer.  After a
    failed attempt the function sleeps [RETRY_DELAY] = 2 seconds and
    tries again, up to [RETRIES] = 2 more times; the first answer ends
    the call with its decoded body, no request after it; when the third
    attempt fails too the call raises a [RuntimeError] made from the last
    failure, without sleeping again. *)
Theorem get_latest_html_retries (url : pystr) (force : option pystr)
  (st : Thread) :
  (RETRIES = 2 /\ RETRY_DELAY = 2) /\
  (forall x, (exists msg, attempt_of x = Failed msg) <-> refused x) /\
  (forall k status text resp,
      k <= RETRIES ->
      (forall j, j < k ->
                 refused (xnet (tid st) url (requests_made st + j))) ->
      xnet (tid st) url (requests_made st + k) = HttpResponse status text resp ->
      status < 400 \/ 600 <= status ->
      get_latest_html resp_text (http_world xnet disk sched) url force st
      = (Ok (resp_text (set_encoding force resp)),
         advance st (k + 1) (retry_events url k ++ [EvGet url 30]))) /\
  (forall msg,
      (forall j, j < RETRIES ->
                 refused (xnet (tid st) url (requests_made st + j))) ->
      attempt_of (xnet (tid st) url (requests_made st + RETRIES)) = Failed msg ->
      get_latest_html resp_text (http_world xnet disk sched) url force st
      = (Raise (RuntimeError (lit "Failed to fetch " ++ url ++ lit ": " ++ msg)
                  (RequestException msg)),
         advance st (RETRIES + 1)
           (retry_events url RETRIES ++ [EvGet url 30]))).
Proof.
  assert (Hfails : forall k,
             (forall j, j < k ->
                        refused (xnet (tid st) url (requests_made st + j))) ->
             forall j, j < k ->
                       fails_at (http_world xnet disk sched) st url j).
  { intros k H j Hj. apply refused_fails. now apply H. }
  split; [now split|]. split; [intros x; symmetry; apply refused_fails|]. split.
  - intros k status text resp Hk Hrefused Hx Hstatus.
    apply get_latest_html_answered; [exact Hk | now apply Hfails|].
    cbn [http_world net]. rewrite Hx. cbn [attempt_of].
    replace ((400 <=? status) && (status <? 600)) with false; [reflexivity|].
    symmetry. apply andb_false_iff. destruct Hstatus as [H | H].
    + left. apply Nat.leb_gt. exact H.
    + right. apply Nat.ltb_ge. exact H.
  - intros msg Hrefused Hlast.
    apply get_latest_html_exhausted; [now apply Hfails | exact Hlast].
Qed.

End FetcherByStatus.

Lemma get_latest_html_retries_witness :
  get_latest_html sample_text
    (http_world recovering_net (fun _ => None) []) listing_url None
    (new_thread 1)
  = (Ok (lit "LISTING"),
     mkThread 1 3 [EvGet listing_url 30; EvSleep 2; EvGet listing_url 30;
                   EvSleep 2; EvGet listing_url 30]) /\
  get_latest_html sample_text
    (http_world not_found_net (fun _ => None) []) listing_url None
    (new_thread 1)
  = (Raise (RuntimeError
              (lit "Failed to fetch " ++ listing_url ++ lit ": 404 Client Error")
              (RequestException (lit "404 Client Error"))),
     mkThread 1 3 [EvGet listing_url 30; EvSleep 2; EvGet listing_url 30;
                   EvSleep 2; EvGet listing_url 30]).
Proof.
  split.
  - apply (proj1 (proj2 (proj2 (get_latest_html_retries sample_text
                           recovering_net (fun _ => None) [] listing_url None
                           (new_thread 1))))
             2 200 [] (latin1_page (lit "LISTING"))).
    + unfold RETRIES. lia.
    + intros j Hj. destruct j as [|[|j]]; cbn; [exact I | lia | lia].
    + reflexivity.
    + left. lia.
  - apply (proj2 (proj2 (proj2 (get_latest_html_retries sample_text
                           not_found_net (fun _ => None) [] listing_url None
                           (new_thread 1))))
             (lit "404 Client Error")).
    + intros j Hj. cbn. lia.
    + reflexivity.
Defined.

(** C6, the claim as it stands fails: a response whose status is not a
    2xx one, here 300, is no failure for the code.  Its body is returned
    at the first attempt, without a sleep and without a second request. *)
Lemma non_2xx_answer_not_retried :
  ~ (200 <= 300 < 300) /\
  attempt_of (HttpResponse 300 (lit "300 Multiple Choices")
                (latin1_page (lit "LISTING")))
  = Answered (latin1_page (lit "LISTING")) /\
  get_latest_html sample_text multiple_choices_world listing_url None
    (new_thread 1)
  = (Ok (lit "LISTING"), mkThread 1 1 [EvGet listing_url 30]).
Proof.
  split; [lia|]. split; reflexivity.
Qed.

(* ================================================================== *)
(** * More on the two parsers *)
(* ================================================================== *)

Lemma trimmed_nil : trimmed [].
Proof. intros c [H | H]; discriminate. Qed.

Lemma trimmed_app p q : p <> [] -> trimmed p -> trimmed q -> trimmed (p ++ q).
Proof.
  intros Hp Htp Htq c [H | H].
  - apply Htp. left. destruct p; [congruence | exact H].
  - rewrite rev_app_distr in H. destruct (rev q) as [|d r] eqn:E.
    + apply Htp. now right.
    + apply Htq. right. rewrite E. exact H.
Qed.

Lemma concat_trimmed pieces :
  Forall (fun p => p <> [] /\ trimmed p) pieces -> trimmed (concat pieces).
Proof.
  induction 1 as [|p ps [Hne Htp] _ IH]; [apply trimmed_nil|].
  cbn [concat]. now apply trimmed_app.
Qed.

(** The text [get_text(strip=True)] gives has no whitespace at its ends. *)
Lemma get_text_strip_trimmed n : trimmed (get_text_strip n).
Proof.
  unfold get_text_strip, stripped_strings. apply concat_trimmed.
  apply Forall_forall. intros p Hp. apply in_flat_map in Hp as (d & _ & Hp).
  destruct d as [s | s | name attrs contents]; try contradiction.
  destruct (strip s) as [|a r] eqn:E; [contradiction|].
  cbn [is_empty] in Hp. destruct Hp as [<- | []].
  split; [discriminate|]. rewrite <- E. apply strip_trimmed.
Qed.

(** A row as [parse_titulados_table] returns them. *)
Lemma rows_loop_rows trs : forall rows_data rows,
  Forall (fun r => (fst r <> [] \/ snd r <> []) /\
                   trimmed (fst r) /\ trimmed (snd r)) rows_data ->
  rows_loop trs rows_data = Ok rows ->
  Forall (fun r => (fst r <> [] \/ snd r <> []) /\
                   trimmed (fst r) /\ trimmed (snd r)) rows.
Proof.
  induction trs as [|r trs IH]; intros rows_data rows Hacc Hrun;
    cbn [rows_loop] in Hrun.
  - now injection Hrun as <-.
  - destruct (find_all [lit "td"; lit "th"] r) as [|c0 [|c1 cells]];
      cbn [len Nat.leb getitem nth_error rbind] in Hrun;
      try (eapply IH; eassumption).
    destruct (truthy (get_text_strip c0) || truthy (get_text_strip c1)) eqn:E;
      [|eapply IH; eassumption].
    eapply IH; [|exact Hrun]. apply Forall_app. split; [exact Hacc|].
    constructor; [|constructor]. cbn [fst snd].
    split; [|split; apply get_text_strip_trimmed].
    apply orb_prop in E as [E | E]; [left | right];
      intros Hnil; rewrite Hnil in E; discriminate.
Qed.

Lemma titulados_loop_rows tables : forall rows,
  titulados_loop tables [] = Ok rows ->
  Forall (fun r => (fst r <> [] \/ snd r <> []) /\
                   trimmed (fst r) /\ trimmed (snd r)) rows.
Proof.
  induction tables as [|t rest IH]; intros rows Hrun.
  - cbn in Hrun. injection Hrun as <-. constructor.
  - rewrite titulados_loop_step in Hrun. destruct (is_data_table t).
    + eapply rows_loop_rows; [|exact Hrun]. constructor.
    + now apply IH.
Qed.

(** X6.  On the tree of a page, the walk of [parse_titulados_table]
    over the tables and their rows ends without an exception (no cell is
    read out of range), and in every row it returns the name or the year
    is not empty and neither starts or ends with whitespace. *)
Theorem parse_titulados_soup_rows (soup : node) :
  exists rows,
    parse_titulados_soup soup = Ok rows /\
    Forall (fun r => (fst r <> [] \/ snd r <> []) /\
                     trimmed (fst r) /\ trimmed (snd r)) rows.
Proof.
  unfold parse_titulados_soup.
  destruct (titulados_loop_total (find_all [lit "table"] soup) [])
    as [rows Hrows].
  exists rows. split; [exact Hrows|]. now apply titulados_loop_rows in Hrows.
Qed.

Lemma contains_app_l sub p s :
  contains sub s = true -> contains sub (p ++ s) = true.
Proof.
  intros H. induction p as [|c p IH]; [exact H|].
  cbn [app contains]. rewrite IH. apply orb_true_r.
Qed.

(** What [resolve_url] keeps of the link target. *)
Lemma resolve_url_keeps href sub :
  contains sub href = true ->
  contains sub (resolve_url href) = true /\
  startswith (resolve_url href) (lit "http") = true.
Proof.
  intros H. unfold resolve_url.
  destruct (startswith href (lit "http")) eqn:Ehttp; [now split|].
  destruct (startswith href (lit "/")).
  - split; [now apply contains_app_l | reflexivity].
  - split; [|reflexivity]. rewrite app_assoc. now apply contains_app_l.
Qed.

(** X7.  On the tree of the index page, the walk of [parse_programas]
    over the tables ends without an exception, and every pair it returns
    has a label that is not empty and has no whitespace at its ends, and
    an address that starts with [http] and contains both [titulados.asp]
    and [prog=]: the test [scrape_career] makes on the address before it
    fetches again under ISO-8859-1 holds for every career found. *)
Theorem parse_programas_soup_links (upper : pystr -> pystr) (soup : node) :
  exists links,
    parse_programas_soup upper soup = Ok links /\
    Forall (fun l => fst l <> [] /\ trimmed (fst l) /\
                     startswith (snd l) (lit "http") = true /\
                     contains (lit "titulados.asp") (snd l) = true /\
                     contains (lit "prog=") (snd l) = true) links.
Proof.
  unfold parse_programas_soup.
  destruct (programas_loop_total upper (find_all [lit "table"] soup) [])
    as [links Hrun].
  exists links. split; [exact Hrun|].
  apply Forall_forall. intros l Hl.
  eapply programas_loop_origin in Hl; [|exact Hrun].
  destruct Hl as [[] | (t & _ & _ & Hlk)].
  unfold table_links in Hlk. apply in_flat_map in Hlk as (a & _ & Hlk).
  unfold link_of in Hlk. destruct (qualifies a) eqn:Hq; [|contradiction].
  destruct Hlk as [<- | []]. cbn [fst snd].
  unfold qualifies in Hq.
  apply andb_prop in Hq as [Hq Hname]. apply andb_prop in Hq as [Hpath Hquery].
  split; [intros Hnil; rewrite Hnil in Hname; discriminate|].
  split; [apply get_text_strip_trimmed|].
  destruct (resolve_url_keeps _ _ Hpath) as [H1 H2].
  destruct (resolve_url_keeps _ _ Hquery) as [H3 _].
  now repeat split.
Qed.

(* ================================================================== *)
(** * More on [scrape_career] and [main] *)
(* ================================================================== *)

Section WorkerOutcomes.

Variable html_parser : pystr -> node.
Variable resp_text : Response -> pystr.
Variable w : World.





End WorkerOutcomes.

Lemma existsb_filter_same {A} (p : A -> bool) xs :
  existsb p (filter p xs) = existsb p xs.
Proof.
  induction xs as [|x xs IH]; [reflexivity|]. cbn [filter existsb].
  destruct (p x) eqn:E; cbn [existsb]; now rewrite ?E, IH.
Qed.

Lemma existsb_perm {A} (p : A -> bool) xs ys :
  Permutation xs ys -> existsb p xs = existsb p ys.
Proof.
  induction 1 as [|x xs ys _ IH|x y xs|xs ys zs _ IH1 _ IH2]; cbn [existsb].
  - reflexivity.
  - now rewrite IH.
  - now destruct (p x), (p y).
  - now rewrite IH1.
Qed.

Lemma e_truthy_entry_of f : e_truthy (entry_of f) = flagged f.
Proof. unfold entry_of, flagged. now destruct (fut_outcome f). Qed.

Lemma existsb_entries fs :
  existsb e_truthy (map entry_of fs) = existsb flagged fs.
Proof.
  induction fs as [|f fs IH]; [reflexivity|]. cbn [map existsb].
  now rewrite e_truthy_entry_of, IH.
Qed.

Section CoordinatorOutcomes.

Variable upper : pystr -> pystr.
Variable html_parser : pystr -> node.
Variable resp_text : Response -> pystr.
Variable w : World.

(** The whole run once careers were found. *)
Lemma main_run html st1 careers :
  get_latest_html resp_text w PROGRAMAS_URL None main_started = (Ok html, st1) ->
  parse_programas upper html_parser html = Ok careers ->
  careers <> [] ->
  main upper html_parser resp_text w
  = (Ok (submit_all html_parser resp_text w OUTPUT_DIR 0 careers),
     advance st1 0
       (EvPrint (MsgFound (len careers))
        :: map report_line
             (as_completed (sched w)
                (submit_all html_parser resp_text w OUTPUT_DIR 0 careers))
        ++ EvPrint
             (MsgDone
                (count_ok
                   (map entry_of
                      (as_completed (sched w)
                         (submit_all html_parser resp_text w OUTPUT_DIR 0
                            careers))))
                (len careers) OUTPUT_DIR
                (sum_rows
                   (map entry_of
                      (as_completed (sched w)
                         (submit_all html_parser resp_text w OUTPUT_DIR 0
                            careers)))))
        :: (if existsb flagged
                 (submit_all html_parser resp_text w OUTPUT_DIR 0 careers)
            then [EvPrint MsgSomeFailed] else []))).
Proof.
  intros Hfetch Hparse Hne.
  rewrite (@main_after_index upper html_parser resp_text w html st1 careers
             Hfetch Hparse).
  replace (is_nil careers) with false by now destruct careers.
  cbv zeta.
  remember (submit_all html_parser resp_text w OUTPUT_DIR 0 careers)
    as futures eqn:Hfut.
  pose proof (as_completed_perm futures (sched w)) as Hperm.
  remember (as_completed (sched w) futures) as completed eqn:Hcompleted.
  rewrite <- (existsb_perm flagged Hperm), <- existsb_entries,
    <- (existsb_filter_same e_truthy).
  unfold bind at 1. unfold log at 1.
  unfold bind at 1. rewrite collect_loop_spec. cbv beta iota.
  unfold bind at 1. unfold log at 1.
  unfold bind at 1. cbn [app].
  destruct (existsb e_truthy _); unfold log, ret, advance;
    cbn [tid requests_made trace]; rewrite ?Nat.add_0_r;
    f_equal; f_equal; rewrite <- ?app_assoc; reflexivity.
Qed.

(** X10.  When careers were found, the tally is the last line [main]
    prints unless some worker raised an exception whose text is not
    empty: then, and only then, the warning that some careers failed
    follows it, whatever the order the futures completed in. *)
Theorem main_flags_failures (html : pystr) (st1 : Thread)
  (careers : list (pystr * pystr)) :
  get_latest_html resp_text w PROGRAMAS_URL None main_started = (Ok html, st1) ->
  parse_programas upper html_parser html = Ok careers ->
  careers <> [] ->
  exists body ok total,
    trace (snd (main upper html_parser resp_text w))
    = body ++
      EvPrint (MsgDone ok (len careers) OUTPUT_DIR total)
      :: (if existsb flagged
               (submit_all html_parser resp_text w OUTPUT_DIR 0 careers)
          then [EvPrint MsgSomeFailed] else []).
Proof.
  intros Hfetch Hparse Hne.
  rewrite (main_run Hfetch Hparse Hne). cbn [snd advance trace].
  eexists (trace st1 ++ EvPrint (MsgFound (len careers)) :: map report_line _).
  eexists. eexists. rewrite <- app_assoc. reflexivity.
Qed.

End CoordinatorOutcomes.

Lemma main_flags_failures_witness :
  exists body ok total,
    trace (snd (main ascii_upper sample_parser sample_text mixed_world))
    = body ++
      EvPrint (MsgDone ok 3 OUTPUT_DIR total) :: [EvPrint MsgSomeFailed].
Proof.
  apply (@main_flags_failures ascii_upper sample_parser sample_text mixed_world
           (lit "INDEX") main_fetched sample_careers eq_refl eq_refl).
  discriminate.
Defined.

(* ================================================================== *)
(** * The files of the scraper in the hands of the other two scripts *)
(* ================================================================== *)

Lemma count_csv_rows_cons header rows :
  Estadisticas.count_csv_rows (header :: rows) = len rows.
Proof. unfold Estadisticas.count_csv_rows. apply list_sum_ones. Qed.

(** The loop only appends, one record per count. *)
Lemma mujeres_loop_spec upper female_names rows : forall written k,
  exists more,
    fst (BuildMujeres.mujeres_loop upper female_names rows written k)
    = written ++ more /\
    len more <= len rows /\
    forall n,
      snd (BuildMujeres.mujeres_loop upper female_names rows written k)
      = BuildMujeres.Done n ->
      n = k + len more.
Proof.
  induction rows as [|row rows IH]; intros written k;
    cbn [BuildMujeres.mujeres_loop].
  - exists []. cbn [fst snd len]. rewrite app_nil_r.
    split; [reflexivity|]. split; [lia|]. intros n [= <-]. lia.
  - destruct (existsb _ female_names).
    + destruct (BuildMujeres.writerow BuildMujeres.FIELDNAMES row) as [line | e].
      * destruct (IH (written ++ [line]) (k + 1)) as (more & Hout & Hlen & Hn).
        exists (line :: more). rewrite Hout, <- app_assoc.
        split; [reflexivity|]. cbn [len]. split; [lia|].
        intros n Hdone. rewrite (Hn n Hdone). lia.
      * exists []. cbn [fst snd len]. rewrite app_nil_r.
        split; [reflexivity|]. split; [lia|]. discriminate.
    + destruct (IH written k) as (more & Hout & Hlen & Hn).
      exists more. split; [exact Hout|]. cbn [len]. split; [lia | exact Hn].
Qed.

(** X12.  Whatever the career file holds, the file [write_mujeres_csv]
    writes starts with the header of the six field names; it has at most
    as many data rows as [count_csv_rows] counts in the career file; and
    when the function returns, the count it returns is the number of data
    rows it wrote, which is what [count_csv_rows] counts in its file. *)
Theorem write_mujeres_csv_count (upper : pystr -> pystr)
  (career_records : list (list pystr)) (female_names : list pystr) :
  exists written,
    fst (BuildMujeres.write_mujeres_csv upper career_records female_names)
    = BuildMujeres.FIELDNAMES :: written /\
    len written <= Estadisticas.count_csv_rows career_records /\
    forall n,
      snd (BuildMujeres.write_mujeres_csv upper career_records female_names)
      = BuildMujeres.Done n ->
      n = len written /\
      Estadisticas.count_csv_rows
        (fst (BuildMujeres.write_mujeres_csv upper career_records female_names))
      = n.
Proof.
  unfold BuildMujeres.write_mujeres_csv.
  destruct (mujeres_loop_spec upper female_names
              (BuildMujeres.DictReader career_records)
              [BuildMujeres.FIELDNAMES] 0) as (more & Hout & Hlen & Hn).
  exists more. rewrite Hout. split; [reflexivity|]. split.
  - destruct career_records as [|header rows].
    { cbn [BuildMujeres.DictReader len] in Hlen. now inversion Hlen. }
    rewrite count_csv_rows_cons. cbn [BuildMujeres.DictReader] in Hlen.
    rewrite length_map in Hlen.
    pose proof (filter_length_le (fun r => negb (is_nil r)) rows). lia.
  - intros n Hdone. rewrite (Hn n Hdone). cbn [app].
    now rewrite count_csv_rows_cons.
Qed.

(** The lines [scrape_career] writes have six fields. *)
Lemma csv_lines_six rows : forall lines,
  csv_lines rows = Ok lines ->
  Forall (fun l => exists a b c d e f, l = [a; b; c; d; e; f]) lines.
Proof.
  induction rows as [|[nombre anio] rows IH]; intros lines Hlines;
    cbn [csv_lines] in Hlines.
  - injection Hlines as <-. constructor.
  - destruct (split_name nombre) as [parts|]; [|discriminate].
    destruct (csv_lines rows) as [lines'|]; [|discriminate].
    cbn [rbind] in Hlines. injection Hlines as <-.
    constructor; [|now apply IH]. repeat eexists.
Qed.

(** On records of six fields under the header of the scraper the loop
    copies the selected records as they are. *)
Lemma mujeres_loop_six upper female_names lines : forall written k,
  Forall (fun l => exists a b c d e f, l = [a; b; c; d; e; f]) lines ->
  BuildMujeres.mujeres_loop upper female_names
    (map (BuildMujeres.dictreader_row BuildMujeres.FIELDNAMES) lines)
    written k
  = (written ++ filter (BuildMujeres.first_name_in upper female_names) lines,
     BuildMujeres.Done
       (k + len (filter (BuildMujeres.first_name_in upper female_names) lines))).
Proof.
  induction lines as [|l lines IH]; intros written k Hsix.
  - cbn. now rewrite app_nil_r, Nat.add_0_r.
  - apply Forall_cons_iff in Hsix as [(a & b & c & d & e & f & ->) Hsix].
    cbn [map BuildMujeres.mujeres_loop filter].
    change (BuildMujeres.get_or_empty
              (BuildMujeres.dictreader_row BuildMujeres.FIELDNAMES
                 [a; b; c; d; e; f]) (lit "primer_nombre")) with c.
    change (BuildMujeres.writerow BuildMujeres.FIELDNAMES
              (BuildMujeres.dictreader_row BuildMujeres.FIELDNAMES
                 [a; b; c; d; e; f]))
      with (BuildMujeres.Done [a; b; c; d; e; f]).
    change (existsb (pystr_eqb (upper (strip c))) female_names)
      with (BuildMujeres.first_name_in upper female_names [a; b; c; d; e; f]).
    destruct (BuildMujeres.first_name_in upper female_names [a; b; c; d; e; f]).
    + rewrite IH by exact Hsix. cbn [len].
      rewrite <- app_assoc. cbn [app]. do 2 f_equal. lia.
    + now apply IH.
Qed.

(** X13.  On the records [scrape_career] writes for any rows (read back
    as they were written), [count_csv_rows] counts the rows, and
    [write_mujeres_csv] does not raise: it copies, unchanged and in
    order, the lines whose first-name column, stripped and upper-cased,
    is in the set, and returns their number. *)
Theorem scraped_file_downstream (upper : pystr -> pystr)
  (rows : list (pystr * pystr)) (female_names : list pystr) :
  exists lines,
    csv_lines rows = Ok lines /\
    Estadisticas.count_csv_rows (fieldnames :: lines) = len rows /\
    BuildMujeres.write_mujeres_csv upper (fieldnames :: lines) female_names
    = (BuildMujeres.FIELDNAMES
       :: filter (BuildMujeres.first_name_in upper female_names) lines,
       BuildMujeres.Done
         (len (filter (BuildMujeres.first_name_in upper female_names) lines))).
Proof.
  destruct (csv_lines_total rows) as (lines & Hlines & Hlen).
  exists lines. split; [exact Hlines|].
  split; [now rewrite count_csv_rows_cons|].
  pose proof (csv_lines_six _ Hlines) as Hsix.
  unfold BuildMujeres.write_mujeres_csv.
  change (BuildMujeres.DictReader (fieldnames :: lines))
    with (map (BuildMujeres.dictreader_row BuildMujeres.FIELDNAMES)
              (filter (fun r => negb (is_nil r)) lines)).
  replace (filter (fun r => negb (is_nil r)) lines) with lines.
  - now rewrite mujeres_loop_six.
  - clear Hlines Hlen. induction Hsix as [|l ls (a & b & c & d & e & f & ->) _ IH];
      [reflexivity|]. cbn [filter is_nil negb]. now f_equal.
Qed.
